(** * RealtimeSanitizer: the per-thread context and the detection protocol

    A shallow embedding of [compiler-rt/lib/rtsan/rtsan_context.cpp]:
    the two depth counters of [__rtsan::Context], the registry that hands
    each thread its context ([GetContextForThisThread]), the detector
    ([ExpectNotRealtime]), the reporter ([PrintDiagnostics]) and the action
    taken after a report ([InvokeViolationDetectedAction]).

    The code is written once, as a tree of the operations it performs on
    the process ([rt]), and read in two ways. [run] takes a call of one
    thread to its end before the next call, of any thread, starts; the
    statements about the context, the detector and the lookups are made
    this way. [execution] lets the threads take turns one operation at a
    time in any order; the statement about the race through the one-time
    setup is made that way. *)

From Stdlib Require Import ZArith Lia Ascii String.
From stdpp Require Import base option list gmap strings.

Local Open Scope Z_scope.

(** ** The counters' type *)

(** Modelled from the spec: the class declaration (rtsan_context.h) is not
    among the sources, and the spec calls the two counters integer
    counters. They are taken as C++ [int]: 32 bits, two's complement, with
    [++] and [--] wrapping around at the ends of the range. *)
Definition INT_MIN : Z := - 2 ^ 31.
Definition INT_MAX : Z := 2 ^ 31 - 1.

Definition wrap_int (z : Z) : Z := (z + 2 ^ 31) mod 2 ^ 32 - 2 ^ 31.

Definition in_int (z : Z) : Prop := INT_MIN <= z <= INT_MAX.

(** ** [__rtsan::Context] *)

(** Modelled from the spec: the members of the class, one depth counter
    for the real-time regions and one for the bypass regions. *)
Record Context : Type := mkContext {
  realtime_depth_ : Z;
  bypass_depth_ : Z
}.

(** Modelled from the spec: the member initialisers behind
    [Context::Context() = default]. A thread that never pushed is in no
    region and not bypassed, so a new context holds 0 in both counters. *)
Definition Context_new : Context := mkContext 0 0.

(** [void Context::RealtimePush() { realtime_depth_++; }] *)
Definition RealtimePush (c : Context) : Context :=
  mkContext (wrap_int (realtime_depth_ c + 1)) (bypass_depth_ c).

(** [void Context::RealtimePop() { realtime_depth_--; }] *)
Definition RealtimePop (c : Context) : Context :=
  mkContext (wrap_int (realtime_depth_ c - 1)) (bypass_depth_ c).

(** [void Context::BypassPush() { bypass_depth_++; }] *)
Definition BypassPush (c : Context) : Context :=
  mkContext (realtime_depth_ c) (wrap_int (bypass_depth_ c + 1)).

(** [void Context::BypassPop() { bypass_depth_--; }] *)
Definition BypassPop (c : Context) : Context :=
  mkContext (realtime_depth_ c) (wrap_int (bypass_depth_ c - 1)).

(** [bool Context::InRealtimeContext() const { return realtime_depth_ > 0; }] *)
Definition InRealtimeContext (c : Context) : bool := realtime_depth_ c >? 0.

(** [bool Context::IsBypassed() const { return bypass_depth_ > 0; }] *)
Definition IsBypassed (c : Context) : bool := bypass_depth_ c >? 0.

(** A context whose counters are values of the counters' type. *)
Definition Context_wf (c : Context) : Prop :=
  in_int (realtime_depth_ c) /\ in_int (bypass_depth_ c).

(** ** The process around the contexts *)

(** Threads are numbered; an address names a block of the internal
    allocator, and a pointer that may be null is an [option addr]. *)
Abbreviation tid := nat (only parsing).
Abbreviation addr := positive (only parsing).
Abbreviation uptr := Z (only parsing).

(** The non-const and the const member functions of [Context], as they
    are called through a reference. *)
Inductive Mutator : Type :=
  | MRealtimePush | MRealtimePop | MBypassPush | MBypassPop.

Inductive Observer : Type :=
  | QInRealtimeContext | QIsBypassed.

Definition mutate (m : Mutator) : Context -> Context :=
  match m with
  | MRealtimePush => RealtimePush
  | MRealtimePop => RealtimePop
  | MBypassPush => BypassPush
  | MBypassPop => BypassPop
  end.

Definition observe (q : Observer) : Context -> bool :=
  match q with
  | QInRealtimeContext => InRealtimeContext
  | QIsBypassed => IsBypassed
  end.

(** [__sanitizer::SanitizerCommonDecorator] is not among the sources: the
    escape sequences it hands out are a parameter of the process. *)
Record SanitizerCommonDecorator : Type := mkDecorator {
  Error : string;
  Default : string;
  Green : string;
  Blue : string
}.

(** [class Decorator : public SanitizerCommonDecorator] *)
Definition FunctionName (d : SanitizerCommonDecorator) : string := Green d.
Definition Reason (d : SanitizerCommonDecorator) : string := Blue d.

(** What the process has written to its error output. *)
Inductive Output : Type :=
  | OutPrintf (text : string)
  | OutReport (text : string)
  | OutStackTrace (pc bp : uptr).

(** A function registered as the destructor of a thread-specific key. *)
Inductive Destructor : Type :=
  | dtor_InternalFreeWrapper.

(** The operations the code performs on the process. *)
Inductive Prim : Type :=
  | OpQuery (p : addr) (q : Observer)
  | OpCall (p : addr) (m : Mutator)
  | OpConstruct (p : addr)
  | OpIsInitialized
  | OpCallerPcBp
  | OpDecorator
  | OpLock
  | OpUnlock
  | OpPrintf (text : string)
  | OpReport (text : string)
  | OpPrintStackTrace (pc bp : uptr)
  | OpCheckFailed
  | OpDie
  | OpOnceEnter
  | OpOnceDone
  | OpKeyCreate (destructor : Destructor)
  | OpGetSpecific
  | OpSetSpecific (p : addr)
  | OpAlloc
  | OpFree (p : addr).

Definition Answer (e : Prim) : Type :=
  match e with
  | OpQuery _ _ => bool
  | OpIsInitialized => bool
  | OpCallerPcBp => uptr * uptr
  | OpDecorator => SanitizerCommonDecorator
  | OpCheckFailed => Empty_set
  | OpDie => Empty_set
  | OpOnceEnter => bool
  | OpKeyCreate _ => Z
  | OpGetSpecific => option addr
  | OpAlloc => addr
  | _ => unit
  end.

(** A piece of the runtime's code: it returns, or performs an operation
    and goes on with the operation's answer. *)
Inductive rt (A : Type) : Type :=
  | Ret (a : A)
  | Step (e : Prim) (k : Answer e -> rt A).

Arguments Ret {A} a.
Arguments Step {A} e k.

Fixpoint rt_bind {A B : Type} (f : A -> rt B) (p : rt A) : rt B :=
  match p with
  | Ret a => f a
  | Step e k => Step e (fun x => rt_bind f (k x))
  end.

#[export] Instance rt_mret : MRet rt := @Ret.
#[export] Instance rt_mbind : MBind rt := @rt_bind.

Definition perform (e : Prim) : rt (Answer e) := Step e Ret.

(** A once-control of [pthread_once]: untouched, with the routine of
    some thread running, or with the routine completed. *)
Inductive pthread_once_t : Type :=
  | PTHREAD_ONCE_INIT | ONCE_IN_PROGRESS | ONCE_DONE.

(** The state of the process. The first four fields are given from
    outside and never written by this file's code. *)
Record World : Type := mkWorld {
  rtsan_initialized : bool;            (* what __rtsan_is_initialized() answers *)
  caller : uptr * uptr;                (* what GET_CALLER_PC_BP captures: pc, bp *)
  decorator : SanitizerCommonDecorator;
  key_create_rc : Z;                   (* what pthread_key_create returns *)
  key_once : pthread_once_t;
  context_key : option Destructor;     (* the key, once created *)
  specific : gmap tid addr;            (* each thread's value for context_key *)
  blocks : gset addr;                  (* live blocks of InternalAlloc *)
  objects : gmap addr Context;         (* the contexts constructed in them *)
  output : list Output
}.

Definition set_key_once (b : pthread_once_t) (w : World) : World :=
  mkWorld (rtsan_initialized w) (caller w) (decorator w) (key_create_rc w)
    b (context_key w) (specific w) (blocks w) (objects w) (output w).

Definition set_context_key (k : option Destructor) (w : World) : World :=
  mkWorld (rtsan_initialized w) (caller w) (decorator w) (key_create_rc w)
    (key_once w) k (specific w) (blocks w) (objects w) (output w).

Definition set_specific (m : gmap tid addr) (w : World) : World :=
  mkWorld (rtsan_initialized w) (caller w) (decorator w) (key_create_rc w)
    (key_once w) (context_key w) m (blocks w) (objects w) (output w).

Definition set_blocks (b : gset addr) (w : World) : World :=
  mkWorld (rtsan_initialized w) (caller w) (decorator w) (key_create_rc w)
    (key_once w) (context_key w) (specific w) b (objects w) (output w).

Definition set_objects (o : gmap addr Context) (w : World) : World :=
  mkWorld (rtsan_initialized w) (caller w) (decorator w) (key_create_rc w)
    (key_once w) (context_key w) (specific w) (blocks w) o (output w).

Definition set_output (l : list Output) (w : World) : World :=
  mkWorld (rtsan_initialized w) (caller w) (decorator w) (key_create_rc w)
    (key_once w) (context_key w) (specific w) (blocks w) (objects w) l.

(** How a piece of code ends when it does not return: a failed [CHECK],
    [Die()], an access through a reference to no live context, or a wait
    for another thread. *)
Inductive Stop : Type :=
  | CheckFailure | Died | Fault | Blocked.

Inductive Outcome (A : Type) : Type :=
  | Returned (a : A)
  | Stopped (why : Stop).

Arguments Returned {A} a.
Arguments Stopped {A} why.

(** One operation, performed by thread [t]. *)
Definition handle (t : tid) (e : Prim) (w : World) : Outcome (Answer e) * World :=
  match e as e0 return Outcome (Answer e0) * World with
  | OpQuery p q =>
      match objects w !! p with
      | Some c => (Returned (observe q c), w)
      | None => (Stopped Fault, w)
      end
  | OpCall p m =>
      match objects w !! p with
      | Some c => (Returned tt, set_objects (<[p := mutate m c]> (objects w)) w)
      | None => (Stopped Fault, w)
      end
  | OpConstruct p =>
      if decide (p ∈ blocks w)
      then (Returned tt, set_objects (<[p := Context_new]> (objects w)) w)
      else (Stopped Fault, w)
  | OpIsInitialized => (Returned (rtsan_initialized w), w)
  | OpCallerPcBp => (Returned (caller w), w)
  | OpDecorator => (Returned (decorator w), w)
  | OpLock => (Returned tt, w)          (* recorded in the trace only *)
  | OpUnlock => (Returned tt, w)
  | OpPrintf text => (Returned tt, set_output (output w ++ [OutPrintf text]) w)
  | OpReport text => (Returned tt, set_output (output w ++ [OutReport text]) w)
  | OpPrintStackTrace pc bp =>
      (Returned tt, set_output (output w ++ [OutStackTrace pc bp]) w)
  | OpCheckFailed => (Stopped CheckFailure, w)
  | OpDie => (Stopped Died, w)
  | OpOnceEnter =>
      match key_once w with
      | PTHREAD_ONCE_INIT => (Returned true, set_key_once ONCE_IN_PROGRESS w)
      | ONCE_IN_PROGRESS => (Stopped Blocked, w)
      | ONCE_DONE => (Returned false, w)
      end
  | OpOnceDone => (Returned tt, set_key_once ONCE_DONE w)
  | OpKeyCreate d =>
      if key_create_rc w =? 0
      then (Returned 0, set_context_key (Some d) w)
      else (Returned (key_create_rc w), w)
  | OpGetSpecific => (Returned (specific w !! t), w)
  | OpSetSpecific p => (Returned tt, set_specific (<[t := p]> (specific w)) w)
  | OpAlloc =>
      let p := fresh (blocks w) in
      (Returned p, set_blocks ({[p]} ∪ blocks w) w)
  | OpFree p =>
      (Returned tt, set_objects (delete p (objects w)) (set_blocks (blocks w ∖ {[p]}) w))
  end.

(** A piece of code run by thread [t] from world [w]: how it ends, and
    the world it leaves. *)
Fixpoint run {A : Type} (t : tid) (p : rt A) (w : World) : Outcome A * World :=
  match p with
  | Ret a => (Returned a, w)
  | Step e k =>
      match handle t e w with
      | (Returned x, w') => run t (k x) w'
      | (Stopped why, w') => (Stopped why, w')
      end
  end.

(** The operations it performs on the way, each with the world it is
    performed in. *)
Fixpoint trace {A : Type} (t : tid) (p : rt A) (w : World) : list (Prim * World) :=
  match p with
  | Ret _ => []
  | Step e k =>
      (e, w) ::
      match handle t e w with
      | (Returned x, w') => trace t (k x) w'
      | (Stopped _, _) => []
      end
  end.

(** ** What the code calls: sanitizer_common, pthread, rtsan *)

Definition Die {A : Type} : rt A :=
  Step OpDie (fun x : Empty_set => match x with end).

Definition CheckFailed {A : Type} : rt A :=
  Step OpCheckFailed (fun x : Empty_set => match x with end).

(** [CHECK(c)] and [CHECK_EQ(a, b)]: active in every build. *)
Definition CHECK (c : bool) : rt unit :=
  if c then mret tt else CheckFailed.

Definition CHECK_EQ (a b : Z) : rt unit := CHECK (a =? b).

Definition rtsan_is_initialized : rt bool := perform OpIsInitialized.

Definition GET_CALLER_PC_BP : rt (uptr * uptr) := perform OpCallerPcBp.

(** The text a [printf]-style call writes: each [%s] of the format is
    replaced by the next argument. *)
Fixpoint format (fmt : string) (args : list string) : string :=
  match fmt with
  | EmptyString => EmptyString
  | String "%"%char (String "s"%char rest) =>
      match args with
      | a :: args' => a +:+ format rest args'
      | [] => format rest []
      end
  | String ch rest => String ch (format rest args)
  end.

(** The C escape [\n]. *)
Definition nl : string := String (Ascii.ascii_of_nat 10) EmptyString.

Definition Printf (fmt : string) (args : list string) : rt unit :=
  perform (OpPrintf (format fmt args)).

Definition Report (fmt : string) (args : list string) : rt unit :=
  perform (OpReport (format fmt args)).

Definition PrintStackTrace (pc bp : uptr) : rt unit :=
  perform (OpPrintStackTrace pc bp).

Definition InternalAlloc : rt addr := perform OpAlloc.

Definition InternalFree (ptr : addr) : rt unit := perform (OpFree ptr).

(** [new (p) __rtsan::Context()] *)
Definition placement_new (p : addr) : rt unit := perform (OpConstruct p).

(** [pthread_once(&key_once, init_routine)]: the thread that finds the
    control at [PTHREAD_ONCE_INIT] runs the routine and marks the control
    done; a thread that finds the routine running waits; a thread that
    finds it done goes on. *)
Definition pthread_once (init_routine : rt unit) : rt unit :=
  first ← perform OpOnceEnter;
  if (first : bool) then init_routine;; perform OpOnceDone
  else mret tt.

Definition pthread_key_create (destructor : Destructor) : rt Z :=
  perform (OpKeyCreate destructor).

Definition pthread_getspecific : rt (option addr) := perform OpGetSpecific.

Definition pthread_setspecific (p : addr) : rt unit := perform (OpSetSpecific p).

(** A member function called through the reference [context]. *)
Definition call (context : addr) (m : Mutator) : rt unit :=
  perform (OpCall context m).

Definition query (context : addr) (q : Observer) : rt bool :=
  perform (OpQuery context q).

(** [a && b] of C++: [b] is evaluated only when [a] is true. *)
Definition and_then (a b : rt bool) : rt bool :=
  x ← a; if (x : bool) then b else mret false.

Definition not_ (a : rt bool) : rt bool := x ← a; mret (negb x).

(** ** rtsan_context.cpp *)

(** [static void InternalFreeWrapper(void *ptr) { InternalFree(ptr); }] *)
Definition InternalFreeWrapper (ptr : addr) : rt unit := InternalFree ptr.

Definition destructor_body (d : Destructor) : addr -> rt unit :=
  match d with
  | dtor_InternalFreeWrapper => InternalFreeWrapper
  end.

Definition GetContextForThisThreadImpl : rt addr :=
  let make_thread_local_context_key : rt unit :=
    rc ← pthread_key_create dtor_InternalFreeWrapper;
    CHECK_EQ rc 0 in
  pthread_once make_thread_local_context_key;;
  current_thread_context ← pthread_getspecific;
  match current_thread_context with
  | None =>
      current_thread_context ← InternalAlloc;
      placement_new current_thread_context;;
      pthread_setspecific current_thread_context;;
      mret current_thread_context
  | Some current_thread_context => mret current_thread_context
  end.

(** Only the exit mode exists. *)
Definition InvokeViolationDetectedAction : rt unit := Die.

Definition PrintDiagnostics (intercepted_function_name : string) (pc bp : uptr)
  : rt unit :=
  perform OpLock;;                       (* ScopedErrorReportLock l; *)
  d ← perform OpDecorator;               (* Decorator d; *)
  Printf "%s" [Error d];;
  Report ("ERROR: RealtimeSanitizer: unsafe-library-call" +:+ nl) [];;
  Printf "%s" [Reason d];;
  Printf ("Intercepted call to real-time unsafe function "
          +:+ "`%s%s%s` in real-time context!" +:+ nl)
         [FunctionName d; intercepted_function_name; Reason d];;
  Printf "%s" [Default d];;
  PrintStackTrace pc bp;;
  perform OpUnlock.                      (* l goes out of scope *)

(** The detector, with the action after the report left open. *)
Definition ExpectNotRealtime_under (action : rt unit)
    (context : addr) (intercepted_function_name : string) : rt unit :=
  initialized ← rtsan_is_initialized;
  CHECK initialized;;
  violation ← and_then (query context QInRealtimeContext)
                       (not_ (query context QIsBypassed));
  if (violation : bool) then
    call context MBypassPush;;
    '(pc, bp) ← GET_CALLER_PC_BP;
    PrintDiagnostics intercepted_function_name pc bp;;
    action;;
    call context MBypassPop
  else mret tt.

Definition ExpectNotRealtime (context : addr) (intercepted_function_name : string)
  : rt unit :=
  ExpectNotRealtime_under InvokeViolationDetectedAction
    context intercepted_function_name.

Definition GetContextForThisThread : rt addr := GetContextForThisThreadImpl.

(** The end of thread [t]: its value for the key is cleared and, if it was
    not null, handed to the key's destructor. *)
Definition thread_exit (t : tid) (w : World) : Outcome unit * World :=
  match context_key w, specific w !! t with
  | Some d, Some p =>
      run t (destructor_body d p) (set_specific (delete t (specific w)) w)
  | _, _ => (Returned tt, set_specific (delete t (specific w)) w)
  end.

(** ** Vocabulary of the statements *)

(** The lines of one report, in the order [PrintDiagnostics] writes them
    (lemma [run_PrintDiagnostics]). *)
Definition report_lines (d : SanitizerCommonDecorator)
    (intercepted_function_name : string) (pc bp : uptr) : list Output :=
  [ OutPrintf (Error d);
    OutReport ("ERROR: RealtimeSanitizer: unsafe-library-call" +:+ nl);
    OutPrintf (Reason d);
    OutPrintf ("Intercepted call to real-time unsafe function `"
               +:+ FunctionName d +:+ intercepted_function_name +:+ Reason d
               +:+ "` in real-time context!" +:+ nl);
    OutPrintf (Default d);
    OutStackTrace pc bp ].

(** The operations of the reporting path: the capture of the caller's
    location and everything [PrintDiagnostics] does. *)
Definition reporting (e : Prim) : bool :=
  match e with
  | OpCallerPcBp | OpLock | OpUnlock | OpDecorator
  | OpPrintf _ | OpReport _ | OpPrintStackTrace _ _ => true
  | _ => false
  end.

(** The banner of a report is written by [Report]. *)
Definition is_banner (e : Prim) : bool :=
  match e with
  | OpReport _ => true
  | _ => false
  end.

(** A call of the detector detects a violation when it gets as far as
    writing a report's banner. *)
Definition detects (t : tid) (context : addr) (name : string) (w : World) : bool :=
  existsb (fun x => is_banner (fst x)) (trace t (ExpectNotRealtime context name) w).

(** In world [w'] the context at [ctx] is bypassed, and a call of the
    detector nested there by thread [t], whatever function it is for,
    returns at once and changes nothing. *)
Definition nested_call_is_noop (t : tid) (ctx : addr) (w' : World) : Prop :=
  (exists c', objects w' !! ctx = Some c' /\ IsBypassed c' = true)
  /\ forall name', run t (ExpectNotRealtime ctx name') w' = (Returned tt, w').

(** That holds at every operation of the reporting path of a call. *)
Definition bypassed_while_reporting
    (t : tid) (ctx : addr) (name : string) (w : World) : Prop :=
  forall e w', (e, w') ∈ trace t (ExpectNotRealtime ctx name) w ->
               reporting e = true -> nested_call_is_noop t ctx w'.

(** The key exists, or no thread has tried to create it and its creation
    will succeed. *)
Definition key_available (w : World) : bool :=
  match key_once w with
  | PTHREAD_ONCE_INIT => key_create_rc w =? 0
  | ONCE_IN_PROGRESS => false
  | ONCE_DONE => true
  end.

(** The allocations a piece of code makes. *)
Definition is_alloc (e : Prim) : bool :=
  match e with
  | OpAlloc => true
  | _ => false
  end.

Definition allocations {A : Type} (t : tid) (p : rt A) (w : World) : nat :=
  length (List.filter is_alloc (fst <$> trace t p w)).

(** What may happen between two calls of one thread: any thread looks up
    its context, calls a member function or the detector through some
    reference, or ends. *)
Inductive Activity : Type :=
  | ActLookup (t' : tid)
  | ActMember (t' : tid) (p : addr) (m : Mutator)
  | ActDetect (t' : tid) (p : addr) (name : string)
  | ActExit (t' : tid).

Definition do_activity (a : Activity) (w : World) : Outcome unit * World :=
  match a with
  | ActLookup t' => run t' (GetContextForThisThread;; mret tt) w
  | ActMember t' p m => run t' (call p m) w
  | ActDetect t' p name => run t' (ExpectNotRealtime p name) w
  | ActExit t' => thread_exit t' w
  end.

(** The world after a sequence of activities, if the process survives
    them. *)
Fixpoint after (acts : list Activity) (w : World) : option World :=
  match acts with
  | [] => Some w
  | a :: acts' =>
      match do_activity a w with
      | (Returned _, w') => after acts' w'
      | (Stopped _, _) => None
      end
  end.

(** ** Threads racing through the registry *)

(** Threads inside a call of the registry, each with what is left of its
    call, take turns one operation at a time, in any order; the process
    runs until one of them ends it. *)
Inductive Config : Type :=
  | Running (pool : gmap tid (rt addr)) (w : World)
  | Ended (why : Stop) (w : World).

(** An operation as it was performed: by which thread, and in which
    world. *)
Definition ev_thread (ev : tid * Prim * World) : tid := ev.1.1.
Definition ev_op (ev : tid * Prim * World) : Prim := ev.1.2.
Definition ev_world (ev : tid * Prim * World) : World := ev.2.

(** The next operation of thread [t], if it has one and does not have to
    wait. *)
Definition step_thread (t : tid) (c : Config)
  : option (tid * Prim * World * Config) :=
  match c with
  | Running pool w =>
      match pool !! t with
      | Some (Step e k) =>
          match handle t e w with
          | (Returned x, w') => Some ((t, e, w), Running (<[t := k x]> pool) w')
          | (Stopped Blocked, _) => None
          | (Stopped why, w') => Some ((t, e, w), Ended why w')
          end
      | _ => None
      end
  | Ended _ _ => None
  end.

Inductive execution : Config -> list (tid * Prim * World) -> Config -> Prop :=
  | execution_refl c : execution c [] c
  | execution_snoc c l c1 t ev c2 :
      execution c l c1 ->
      step_thread t c1 = Some (ev, c2) ->
      execution c (l ++ [ev]) c2.

(** The threads taken in the order of [ts]; a thread that cannot move at
    its turn is passed over. *)
Fixpoint schedule (ts : list tid) (c : Config)
  : list (tid * Prim * World) * Config :=
  match ts with
  | [] => ([], c)
  | t :: ts' =>
      match step_thread t c with
      | Some (ev, c') => let (l, c'') := schedule ts' c' in (ev :: l, c'')
      | None => schedule ts' c
      end
  end.

(** The operations of [pthread_once] and of the routine it guards. *)
Definition in_pthread_once (e : Prim) : bool :=
  match e with
  | OpOnceEnter | OpKeyCreate _ | OpCheckFailed | OpOnceDone => true
  | _ => false
  end.

(** The body of the one-time setup creates the key. *)
Definition is_key_create (e : Prim) : bool :=
  match e with
  | OpKeyCreate _ => true
  | _ => false
  end.

Definition key_creations (l : list (tid * Prim * World)) : nat :=
  length (List.filter is_key_create (ev_op <$> l)).

(** Where a thread stands in its lookup: at the entry of [pthread_once],
    about to create the key, about to mark the control done, about to
    fail the check on the key, or past [pthread_once]. *)
Inductive Phase : Type :=
  | AtOnce | Creating | Closing | Failing | Past.

Definition allowed (ph : Phase) (e : Prim) : bool :=
  match ph, e with
  | AtOnce, OpOnceEnter => true
  | Creating, OpKeyCreate _ => true
  | Closing, OpOnceDone => true
  | Failing, OpCheckFailed => true
  | Past, _ => negb (in_pthread_once e)
  | _, _ => false
  end.

Definition next (e : Prim) : Answer e -> Phase :=
  match e with
  | OpOnceEnter => fun first : bool => if first then Creating else Past
  | OpKeyCreate _ => fun rc : Z => if rc =? 0 then Closing else Failing
  | _ => fun _ => Past
  end.

(** What is left of a lookup at each phase. *)
Fixpoint follows (ph : Phase) (p : rt addr) : Prop :=
  match p with
  | Ret _ => ph = Past
  | Step e k => allowed ph e = true /\ forall x, follows (next e x) (k x)
  end.

(** What an execution of racing lookups has to show: the key is created
    at most once, and once as soon as any thread is past [pthread_once];
    a thread goes past [pthread_once] only with the control done and the
    key in place; and while the control is in progress one thread only
    takes steps. *)
Definition setup_once (l : list (tid * Prim * World)) : Prop :=
  (key_creations l <= 1)%nat
  /\ (forall ev, ev ∈ l -> in_pthread_once (ev_op ev) = false ->
        key_once (ev_world ev) = ONCE_DONE
        /\ context_key (ev_world ev) = Some dtor_InternalFreeWrapper)
  /\ (forall ev ev', ev ∈ l -> ev' ∈ l ->
        key_once (ev_world ev) = ONCE_IN_PROGRESS ->
        key_once (ev_world ev') = ONCE_IN_PROGRESS ->
        ev_thread ev = ev_thread ev')
  /\ ((exists ev, ev ∈ l /\ in_pthread_once (ev_op ev) = false) ->
        key_creations l = 1%nat).

(** Who can move: with the control in progress one thread can and no
    other; otherwise every thread that has not returned can. *)
Definition progress (c : Config) : Prop :=
  match c with
  | Running pool w =>
      match key_once w with
      | ONCE_IN_PROGRESS =>
          exists t0, is_Some (step_thread t0 c)
                     /\ forall t, t <> t0 -> step_thread t c = None
      | _ =>
          forall t e k, pool !! t = Some (Step e k) -> is_Some (step_thread t c)
      end
  | Ended _ _ => True
  end.

(** What every execution of racing lookups keeps true, by the state of
    the control: untouched, nothing has happened; in progress, one thread
    is in the setup, all that happened is its doing, and the others stand
    at the entry; done, the key is in place and has been created once. *)
Definition race_invariant (l : list (tid * Prim * World)) (c : Config) : Prop :=
  match c with
  | Ended _ _ => setup_once l
  | Running pool w =>
      match key_once w with
      | PTHREAD_ONCE_INIT =>
          l = [] /\ forall t p, pool !! t = Some p -> follows AtOnce p
      | ONCE_IN_PROGRESS =>
          exists t0 p0,
            pool !! t0 = Some p0
            /\ (forall t p, t <> t0 -> pool !! t = Some p -> follows AtOnce p)
            /\ (forall ev, ev ∈ l ->
                  ev_thread ev = t0 /\ in_pthread_once (ev_op ev) = true)
            /\ ((follows Creating p0 /\ key_creations l = 0%nat)
                \/ (follows Closing p0
                    /\ context_key w = Some dtor_InternalFreeWrapper
                    /\ key_creations l = 1%nat)
                \/ (follows Failing p0 /\ key_creations l = 1%nat))
      | ONCE_DONE =>
          setup_once l
          /\ key_creations l = 1%nat
          /\ context_key w = Some dtor_InternalFreeWrapper
          /\ forall t p, pool !! t = Some p -> follows AtOnce p \/ follows Past p
      end
  end.

(** ** Vocabulary of the further properties *)

(** Member calls through one reference, one after the other. *)
Fixpoint calls (context : addr) (ms : list Mutator) : rt unit :=
  match ms with
  | [] => mret tt
  | m :: ms' => call context m;; calls context ms'
  end.

(** What a member call adds to each counter. *)
Definition realtime_delta (m : Mutator) : Z :=
  match m with
  | MRealtimePush => 1
  | MRealtimePop => -1
  | _ => 0
  end.

Definition bypass_delta (m : Mutator) : Z :=
  match m with
  | MBypassPush => 1
  | MBypassPop => -1
  | _ => 0
  end.

Definition net (delta : Mutator -> Z) (ms : list Mutator) : Z :=
  foldr (fun m z => delta m + z) 0 ms.

(** A counter that [n] increments or decrements cannot take out of the
    range of [int]. *)
Definition room (n : nat) (z : Z) : Prop :=
  INT_MIN + Z.of_nat n <= z <= INT_MAX - Z.of_nat n.

(** The writes to the error output. *)
Definition is_write (e : Prim) : bool :=
  match e with
  | OpPrintf _ | OpReport _ | OpPrintStackTrace _ _ => true
  | _ => false
  end.

(** A sequence of operations keeps the discipline of the report lock:
    the lock is taken only when free, released only when held, every
    write is made with the lock held, and the lock is free at the end. *)
Fixpoint lock_discipline (held : bool) (ops : list Prim) : bool :=
  match ops with
  | [] => negb held
  | OpLock :: ops' => negb held && lock_discipline true ops'
  | OpUnlock :: ops' => held && lock_discipline false ops'
  | e :: ops' => (if is_write e then held else true) && lock_discipline held ops'
  end.

(** Every thread's value for the key is a live block with a context
    constructed in it, and no two threads have the same value. *)
Definition registry_wf (w : World) : Prop :=
  (forall t p, specific w !! t = Some p ->
               p ∈ blocks w /\ is_Some (objects w !! p))
  /\ (forall t1 t2 p, specific w !! t1 = Some p -> specific w !! t2 = Some p ->
                      t1 = t2).


(** Where a thread stands in its lookup with respect to its context:
    before it has read its value for the key, about to allocate, holding
    a block, holding a block with a context constructed in it, or with
    its value for the key known. *)
Inductive Stage : Type :=
  | Looking | NeedAlloc | Got (p : addr) | Built (p : addr) | Found (p : addr).

Definition stage_allowed (st : Stage) (e : Prim) : bool :=
  match st, e with
  | Looking, (OpOnceEnter | OpKeyCreate _ | OpCheckFailed | OpOnceDone
              | OpGetSpecific) => true
  | NeedAlloc, OpAlloc => true
  | Got p, OpConstruct q => bool_decide (q = p)
  | Built p, OpSetSpecific q => bool_decide (q = p)
  | _, _ => false
  end.

Definition stage_next (e : Prim) : Answer e -> Stage :=
  match e with
  | OpGetSpecific => fun r : option addr =>
                       match r with Some q => Found q | None => NeedAlloc end
  | OpAlloc => fun p : addr => Got p
  | OpConstruct p => fun _ => Built p
  | OpSetSpecific p => fun _ => Found p
  | _ => fun _ => Looking
  end.

(** What is left of a lookup at each stage. *)
Fixpoint at_stage (st : Stage) (p : rt addr) : Prop :=
  match p with
  | Ret a => st = Found a
  | Step e k => stage_allowed st e = true /\ forall x, at_stage (stage_next e x) (k x)
  end.

(** The block a thread holds and has not yet made its value for the key. *)
Definition held (st : Stage) : option addr :=
  match st with
  | Got p | Built p => Some p
  | _ => None
  end.

(** What the process owes a thread at each stage. *)
Definition stage_inv (t : tid) (st : Stage) (w : World) : Prop :=
  match st with
  | Looking => True
  | NeedAlloc => specific w !! t = None
  | Got p =>
      specific w !! t = None /\ p ∈ blocks w
      /\ forall t', specific w !! t' <> Some p
  | Built p =>
      specific w !! t = None /\ p ∈ blocks w /\ is_Some (objects w !! p)
      /\ forall t', specific w !! t' <> Some p
  | Found p => specific w !! t = Some p
  end.

(** What every execution of racing lookups keeps true of the contexts:
    the registry is well formed, every thread is at a stage of its lookup
    with what that stage needs, no two threads hold the same block, and
    only the check on the key ends the process. *)
Definition lookups_inv (c : Config) : Prop :=
  match c with
  | Ended why _ => why = CheckFailure
  | Running pool w =>
      registry_wf w
      /\ exists stages : tid -> Stage,
           (forall t p, pool !! t = Some p ->
                        at_stage (stages t) p /\ stage_inv t (stages t) w)
           /\ (forall t1 t2 q, is_Some (pool !! t1) -> is_Some (pool !! t2) ->
                 held (stages t1) = Some q -> held (stages t2) = Some q ->
                 t1 = t2)
  end.

(** What the step of thread [t] leaves to the other threads. *)
Definition extends (t : tid) (w w' : World) : Prop :=
  (forall t', t' <> t -> specific w' !! t' = specific w !! t')
  /\ (forall q, q ∈ blocks w -> q ∈ blocks w')
  /\ (forall q, is_Some (objects w !! q) -> is_Some (objects w' !! q)).

(** Worlds used to instantiate the statements: one thread-owned context
    at address 1, nothing written yet. *)
Definition plain_decorator : SanitizerCommonDecorator := mkDecorator "" "" "" "".

Definition world_with (initialized : bool) (c : Context) : World :=
  mkWorld initialized (4096, 8192) plain_decorator 0
    ONCE_DONE (Some dtor_InternalFreeWrapper)
    {[ 0%nat := 1%positive ]} {[ 1%positive ]} {[ 1%positive := c ]} [].

(** A process in which no thread has asked for its context yet. *)
Definition world_fresh : World :=
  mkWorld true (4096, 8192) plain_decorator 0 PTHREAD_ONCE_INIT None ∅ ∅ ∅ [].

(** A process in which [pthread_key_create] will fail (with [EAGAIN]). *)
Definition world_no_keys : World :=
  mkWorld true (4096, 8192) plain_decorator 11 PTHREAD_ONCE_INIT None ∅ ∅ ∅ [].

(** Two threads racing through their first lookup, and an order of turns
    in which the second arrives while the first is creating the key. *)
Definition two_racing : Config :=
  Running (gset_to_gmap GetContextForThisThread {[0%nat; 1%nat]}) world_fresh.

Definition racing_turns : list tid :=
  [0; 1; 0; 1; 0; 1; 1; 1; 1; 1; 0; 0; 0; 0]%nat.

(** * Properties *)

(** ** Arithmetic of the counters *)

Lemma wrap_int_id z : in_int z -> wrap_int z = z.
Proof.
  unfold in_int, INT_MIN, INT_MAX, wrap_int. intros Hz.
  rewrite Z.mod_small; lia.
Qed.

Lemma wrap_int_in_int z : in_int (wrap_int z).
Proof.
  unfold in_int, INT_MIN, INT_MAX, wrap_int.
  pose proof (Z.mod_pos_bound (z + 2 ^ 31) (2 ^ 32)). lia.
Qed.

Lemma wrap_int_add_l a b : wrap_int (wrap_int a + b) = wrap_int (a + b).
Proof.
  unfold wrap_int.
  replace ((a + 2 ^ 31) mod 2 ^ 32 - 2 ^ 31 + b + 2 ^ 31)
    with ((a + 2 ^ 31) mod 2 ^ 32 + b) by lia.
  rewrite Zplus_mod_idemp_l. f_equal. f_equal. lia.
Qed.

Lemma wrap_int_idemp z : wrap_int (wrap_int z) = wrap_int z.
Proof. apply wrap_int_id, wrap_int_in_int. Qed.

Lemma Context_new_wf : Context_wf Context_new.
Proof. unfold Context_wf, in_int, INT_MIN, INT_MAX; simpl; lia. Qed.

Lemma RealtimePush_wf c : Context_wf c -> Context_wf (RealtimePush c).
Proof. intros [_ Hb]; split; [apply wrap_int_in_int | exact Hb]. Qed.

Lemma RealtimePop_wf c : Context_wf c -> Context_wf (RealtimePop c).
Proof. intros [_ Hb]; split; [apply wrap_int_in_int | exact Hb]. Qed.

Lemma BypassPush_wf c : Context_wf c -> Context_wf (BypassPush c).
Proof. intros [Hr _]; split; [exact Hr | apply wrap_int_in_int]. Qed.

Lemma BypassPop_wf c : Context_wf c -> Context_wf (BypassPop c).
Proof. intros [Hr _]; split; [exact Hr | apply wrap_int_in_int]. Qed.

Lemma iter_wf (f : Context -> Context) (n : nat) c :
  (forall c', Context_wf c' -> Context_wf (f c')) ->
  Context_wf c -> Context_wf (Nat.iter n f c).
Proof. intros Hf Hc. induction n as [|n IH]; simpl; auto. Qed.

(** Repeated pushes and pops, up to the wrap-around of the counter. *)
Lemma realtime_depth_iter_push (n : nat) c :
  wrap_int (realtime_depth_ (Nat.iter n RealtimePush c))
  = wrap_int (realtime_depth_ c + Z.of_nat n).
Proof.
  induction n as [|n IH].
  - simpl. f_equal. lia.
  - rewrite Nat.iter_succ. unfold RealtimePush at 1. simpl realtime_depth_.
    rewrite wrap_int_idemp, <- wrap_int_add_l, IH, wrap_int_add_l.
    f_equal. lia.
Qed.

Lemma realtime_depth_iter_pop (n : nat) c :
  wrap_int (realtime_depth_ (Nat.iter n RealtimePop c))
  = wrap_int (realtime_depth_ c - Z.of_nat n).
Proof.
  induction n as [|n IH].
  - simpl. f_equal. lia.
  - rewrite Nat.iter_succ. unfold RealtimePop at 1. simpl realtime_depth_.
    rewrite wrap_int_idemp.
    replace (realtime_depth_ (Nat.iter n RealtimePop c) - 1)
      with (realtime_depth_ (Nat.iter n RealtimePop c) + -1) by lia.
    rewrite <- wrap_int_add_l, IH, wrap_int_add_l.
    f_equal. lia.
Qed.

Lemma bypass_depth_iter_push (n : nat) c :
  wrap_int (bypass_depth_ (Nat.iter n BypassPush c))
  = wrap_int (bypass_depth_ c + Z.of_nat n).
Proof.
  induction n as [|n IH].
  - simpl. f_equal. lia.
  - rewrite Nat.iter_succ. unfold BypassPush at 1. simpl bypass_depth_.
    rewrite wrap_int_idemp, <- wrap_int_add_l, IH, wrap_int_add_l.
    f_equal. lia.
Qed.

Lemma bypass_depth_iter_pop (n : nat) c :
  wrap_int (bypass_depth_ (Nat.iter n BypassPop c))
  = wrap_int (bypass_depth_ c - Z.of_nat n).
Proof.
  induction n as [|n IH].
  - simpl. f_equal. lia.
  - rewrite Nat.iter_succ. unfold BypassPop at 1. simpl bypass_depth_.
    rewrite wrap_int_idemp.
    replace (bypass_depth_ (Nat.iter n BypassPop c) - 1)
      with (bypass_depth_ (Nat.iter n BypassPop c) + -1) by lia.
    rewrite <- wrap_int_add_l, IH, wrap_int_add_l.
    f_equal. lia.
Qed.

(** Balanced pushes and pops bring a counter back to where it was. *)
Lemma realtime_balanced (n : nat) c :
  Context_wf c ->
  realtime_depth_ (Nat.iter n RealtimePop (Nat.iter n RealtimePush c))
  = realtime_depth_ c.
Proof.
  intros Hc.
  assert (Hwf : Context_wf (Nat.iter n RealtimePop (Nat.iter n RealtimePush c))).
  { apply iter_wf; [apply RealtimePop_wf|].
    apply iter_wf; [apply RealtimePush_wf|exact Hc]. }
  rewrite <- (wrap_int_id _ (proj1 Hwf)), realtime_depth_iter_pop.
  replace (realtime_depth_ (Nat.iter n RealtimePush c) - Z.of_nat n)
    with (realtime_depth_ (Nat.iter n RealtimePush c) + - Z.of_nat n) by lia.
  rewrite <- wrap_int_add_l, realtime_depth_iter_push, wrap_int_add_l.
  replace (realtime_depth_ c + Z.of_nat n + - Z.of_nat n)
    with (realtime_depth_ c) by lia.
  apply wrap_int_id, Hc.
Qed.

Lemma bypass_balanced (n : nat) c :
  Context_wf c ->
  bypass_depth_ (Nat.iter n BypassPop (Nat.iter n BypassPush c))
  = bypass_depth_ c.
Proof.
  intros Hc.
  assert (Hwf : Context_wf (Nat.iter n BypassPop (Nat.iter n BypassPush c))).
  { apply iter_wf; [apply BypassPop_wf|].
    apply iter_wf; [apply BypassPush_wf|exact Hc]. }
  rewrite <- (wrap_int_id _ (proj2 Hwf)), bypass_depth_iter_pop.
  replace (bypass_depth_ (Nat.iter n BypassPush c) - Z.of_nat n)
    with (bypass_depth_ (Nat.iter n BypassPush c) + - Z.of_nat n) by lia.
  rewrite <- wrap_int_add_l, bypass_depth_iter_push, wrap_int_add_l.
  replace (bypass_depth_ c + Z.of_nat n + - Z.of_nat n)
    with (bypass_depth_ c) by lia.
  apply wrap_int_id, Hc.
Qed.

(** ** Running code *)

Lemma run_bind {A B : Type} (t : tid) (p : rt A) (f : A -> rt B) (w : World) :
  run t (p ≫= f) w =
  match run t p w with
  | (Returned a, w') => run t (f a) w'
  | (Stopped why, w') => (Stopped why, w')
  end.
Proof.
  revert w. induction p as [a|e k IH]; intros w; [reflexivity|].
  change (Step e k ≫= f) with (Step e (fun x => k x ≫= f)).
  cbn [run]. destruct (handle t e w) as [[x|why] w']; [apply IH|reflexivity].
Qed.

Lemma trace_bind {A B : Type} (t : tid) (p : rt A) (f : A -> rt B) (w : World) :
  trace t (p ≫= f) w =
  trace t p w ++
  match run t p w with
  | (Returned a, w') => trace t (f a) w'
  | (Stopped _, _) => []
  end.
Proof.
  revert w. induction p as [a|e k IH]; intros w; [reflexivity|].
  change (Step e k ≫= f) with (Step e (fun x => k x ≫= f)).
  cbn [run trace app]. f_equal.
  destruct (handle t e w) as [[x|why] w']; [apply IH|reflexivity].
Qed.

Lemma run_rt_bind {A B : Type} (t : tid) (p : rt A) (f : A -> rt B) (w : World) :
  run t (rt_bind f p) w =
  match run t p w with
  | (Returned a, w') => run t (f a) w'
  | (Stopped why, w') => (Stopped why, w')
  end.
Proof. apply (run_bind t p f w). Qed.

Lemma trace_rt_bind {A B : Type} (t : tid) (p : rt A) (f : A -> rt B) (w : World) :
  trace t (rt_bind f p) w =
  trace t p w ++
  match run t p w with
  | (Returned a, w') => trace t (f a) w'
  | (Stopped _, _) => []
  end.
Proof. apply (trace_bind t p f w). Qed.

(** ** The reporter *)

Lemma append_empty_r (s : string) : s +:+ "" = s.
Proof.
  induction s as [|ch s IH]; [reflexivity|].
  change (String ch (s +:+ "") = String ch s). by rewrite IH.
Qed.

Lemma format_banner :
  format ("ERROR: RealtimeSanitizer: unsafe-library-call" +:+ nl) []
  = "ERROR: RealtimeSanitizer: unsafe-library-call" +:+ nl.
Proof. reflexivity. Qed.

Lemma format_message (a b c : string) :
  format ("Intercepted call to real-time unsafe function "
          +:+ "`%s%s%s` in real-time context!" +:+ nl) [a; b; c]
  = "Intercepted call to real-time unsafe function `"
    +:+ a +:+ b +:+ c +:+ "` in real-time context!" +:+ nl.
Proof. reflexivity. Qed.

(** [PrintDiagnostics] returns, and all it leaves behind is one report at
    the end of the output. *)
Lemma run_PrintDiagnostics t name pc bp w :
  run t (PrintDiagnostics name pc bp) w =
  (Returned tt, set_output (output w ++ report_lines (decorator w) name pc bp) w).
Proof.
  unfold PrintDiagnostics. cbn.
  rewrite !append_empty_r, format_banner, format_message.
  unfold set_output; cbn. rewrite <- !app_assoc. reflexivity.
Qed.

(** Its operations, in order. *)
Lemma trace_PrintDiagnostics_ops t name pc bp w :
  fst <$> (trace t (PrintDiagnostics name pc bp) w) =
  [ OpLock; OpDecorator;
    OpPrintf (Error (decorator w));
    OpReport ("ERROR: RealtimeSanitizer: unsafe-library-call" +:+ nl);
    OpPrintf (Reason (decorator w));
    OpPrintf ("Intercepted call to real-time unsafe function `"
              +:+ FunctionName (decorator w) +:+ name +:+ Reason (decorator w)
              +:+ "` in real-time context!" +:+ nl);
    OpPrintf (Default (decorator w));
    OpPrintStackTrace pc bp;
    OpUnlock ].
Proof.
  unfold PrintDiagnostics. cbn.
  rewrite !append_empty_r, format_banner, format_message. reflexivity.
Qed.

(** While it runs, nothing but the output changes. *)
Lemma trace_PrintDiagnostics_frame t name pc bp w :
  Forall (fun x => rtsan_initialized (snd x) = rtsan_initialized w
                   /\ objects (snd x) = objects w)
         (trace t (PrintDiagnostics name pc bp) w).
Proof.
  unfold PrintDiagnostics. cbn. repeat constructor.
Qed.

(** ** The detector *)

(** The detector in one equation: the check, the test of the context, and
    on a violation the bypass, the report, the action and the pop. *)
Lemma run_ExpectNotRealtime_under (action : rt unit) t ctx name w :
  run t (ExpectNotRealtime_under action ctx name) w =
  if rtsan_initialized w then
    match objects w !! ctx with
    | None => (Stopped Fault, w)
    | Some c =>
        if InRealtimeContext c && negb (IsBypassed c) then
          match run t action
                  (set_output
                     (output w ++ report_lines (decorator w) name (caller w).1 (caller w).2)
                     (set_objects (<[ctx := BypassPush c]> (objects w)) w)) with
          | (Returned _, w') => run t (call ctx MBypassPop) w'
          | (Stopped why, w') => (Stopped why, w')
          end
        else (Returned tt, w)
    end
  else (Stopped CheckFailure, w).
Proof.
  unfold ExpectNotRealtime_under. cbn -[PrintDiagnostics].
  destruct (rtsan_initialized w); [|reflexivity]. cbn -[PrintDiagnostics].
  destruct (objects w !! ctx) as [c|] eqn:Hc; [|reflexivity]. cbn -[PrintDiagnostics].
  destruct (InRealtimeContext c); [|reflexivity]. cbn -[PrintDiagnostics].
  rewrite Hc. cbn -[PrintDiagnostics].
  destruct (IsBypassed c); [reflexivity|]. cbn -[PrintDiagnostics].
  rewrite Hc. cbn -[PrintDiagnostics].
  destruct (caller w) as [pc bp]. cbn -[PrintDiagnostics].
  rewrite run_rt_bind, run_PrintDiagnostics, run_rt_bind. reflexivity.
Qed.

(** Outside a region, or under bypass, an initialised runtime returns at
    once and leaves the world as it was. *)
Lemma run_ExpectNotRealtime_fast (action : rt unit) t ctx name w c :
  rtsan_initialized w = true ->
  objects w !! ctx = Some c ->
  InRealtimeContext c && negb (IsBypassed c) = false ->
  run t (ExpectNotRealtime_under action ctx name) w = (Returned tt, w).
Proof.
  intros Hi Hc Hv. by rewrite run_ExpectNotRealtime_under, Hi, Hc, Hv.
Qed.

(** The operations of a call that reports, up to the action. *)
Lemma trace_ExpectNotRealtime_violation (action : rt unit) t ctx name w c :
  rtsan_initialized w = true ->
  objects w !! ctx = Some c ->
  InRealtimeContext c = true ->
  IsBypassed c = false ->
  let w1 := set_objects (<[ctx := BypassPush c]> (objects w)) w in
  let w2 := set_output
              (output w ++ report_lines (decorator w) name (caller w).1 (caller w).2) w1 in
  trace t (ExpectNotRealtime_under action ctx name) w =
  [ (OpIsInitialized, w); (OpQuery ctx QInRealtimeContext, w);
    (OpQuery ctx QIsBypassed, w); (OpCall ctx MBypassPush, w);
    (OpCallerPcBp, w1) ]
  ++ trace t (PrintDiagnostics name (caller w).1 (caller w).2) w1
  ++ trace t (action;; call ctx MBypassPop) w2.
Proof.
  intros Hi Hc Hr Hb w1 w2. subst w1 w2.
  unfold ExpectNotRealtime_under. cbn -[PrintDiagnostics].
  rewrite Hi. cbn -[PrintDiagnostics]. rewrite Hc. cbn -[PrintDiagnostics].
  rewrite Hr. cbn -[PrintDiagnostics]. rewrite Hc. cbn -[PrintDiagnostics].
  rewrite Hb. cbn -[PrintDiagnostics]. rewrite Hc. cbn -[PrintDiagnostics].
  destruct (caller w) as [pc bp]. cbn -[PrintDiagnostics].
  rewrite trace_rt_bind, run_PrintDiagnostics. reflexivity.
Qed.

(** The operations of a call that does not report. *)
Lemma trace_ExpectNotRealtime_fast (action : rt unit) t ctx name w c :
  rtsan_initialized w = true ->
  objects w !! ctx = Some c ->
  InRealtimeContext c && negb (IsBypassed c) = false ->
  trace t (ExpectNotRealtime_under action ctx name) w =
  (OpIsInitialized, w) :: (OpQuery ctx QInRealtimeContext, w) ::
  (if InRealtimeContext c then [(OpQuery ctx QIsBypassed, w)] else []).
Proof.
  intros Hi Hc Hv.
  unfold ExpectNotRealtime_under. cbn.
  rewrite Hi. cbn. rewrite Hc. cbn.
  destruct (InRealtimeContext c); cbn; [|reflexivity].
  rewrite Hc. cbn. destruct (IsBypassed c); [reflexivity|discriminate].
Qed.

(** With the exit action, the call that reports performs these
    operations and no other. *)
Lemma trace_ExpectNotRealtime_ops t ctx name w c :
  rtsan_initialized w = true ->
  objects w !! ctx = Some c ->
  InRealtimeContext c = true ->
  IsBypassed c = false ->
  fst <$> (trace t (ExpectNotRealtime ctx name) w) =
  [ OpIsInitialized; OpQuery ctx QInRealtimeContext; OpQuery ctx QIsBypassed;
    OpCall ctx MBypassPush; OpCallerPcBp;
    OpLock; OpDecorator;
    OpPrintf (Error (decorator w));
    OpReport ("ERROR: RealtimeSanitizer: unsafe-library-call" +:+ nl);
    OpPrintf (Reason (decorator w));
    OpPrintf ("Intercepted call to real-time unsafe function `"
              +:+ FunctionName (decorator w) +:+ name +:+ Reason (decorator w)
              +:+ "` in real-time context!" +:+ nl);
    OpPrintf (Default (decorator w));
    OpPrintStackTrace (caller w).1 (caller w).2;
    OpUnlock;
    OpDie ].
Proof.
  intros Hi Hc Hr Hb. unfold ExpectNotRealtime.
  rewrite (trace_ExpectNotRealtime_violation _ t ctx name w c Hi Hc Hr Hb).
  rewrite !fmap_app, trace_PrintDiagnostics_ops. reflexivity.
Qed.

(** ** The claims about the counters *)

(** C4: [InRealtimeContext()] is true exactly when [realtime_depth_ > 0]
    and [IsBypassed()] exactly when [bypass_depth_ > 0]; from depth 0, two
    [RealtimePush] and one [RealtimePop] leave the depth at 1 and
    [InRealtimeContext()] true. *)
Theorem C4_depth_predicates (c : Context) :
  (InRealtimeContext c = true <-> realtime_depth_ c > 0)
  /\ (IsBypassed c = true <-> bypass_depth_ c > 0)
  /\ (realtime_depth_ c = 0 ->
      realtime_depth_ (RealtimePop (RealtimePush (RealtimePush c))) = 1
      /\ InRealtimeContext (RealtimePop (RealtimePush (RealtimePush c))) = true).
Proof.
  unfold InRealtimeContext, IsBypassed. rewrite !Z.gtb_lt.
  split; [lia|]. split; [lia|]. intros H0.
  cbn [RealtimePush RealtimePop realtime_depth_]. rewrite H0.
  split; reflexivity.
Qed.

Lemma C4_depth_predicates_witness :
  realtime_depth_ Context_new = 0
  /\ realtime_depth_ (RealtimePop (RealtimePush (RealtimePush Context_new))) = 1
  /\ InRealtimeContext (RealtimePop (RealtimePush (RealtimePush Context_new))) = true.
Proof.
  split; [reflexivity|].
  apply (C4_depth_predicates Context_new). reflexivity.
Defined.

(** C5: for every N, N [RealtimePush] then N [RealtimePop] on a new
    context leave [InRealtimeContext()] false, and N [BypassPush] then N
    [BypassPop] leave [IsBypassed()] false. *)
Theorem C5_balanced_pushes_pops (N : nat) :
  InRealtimeContext (Nat.iter N RealtimePop (Nat.iter N RealtimePush Context_new)) = false
  /\ IsBypassed (Nat.iter N BypassPop (Nat.iter N BypassPush Context_new)) = false.
Proof.
  unfold InRealtimeContext, IsBypassed.
  rewrite (realtime_balanced N _ Context_new_wf), (bypass_balanced N _ Context_new_wf).
  split; reflexivity.
Qed.

(** C10: at depth 0 an unmatched pop takes the counter to -1, and the
    push after it brings it back to 0 and no further: the region, or the
    bypass, is not entered. Nothing checks the counters: a pop through a
    live reference returns like any other call. *)
Theorem C10_unmatched_pop (c : Context) :
  (realtime_depth_ c = 0 ->
   realtime_depth_ (RealtimePop c) = -1
   /\ realtime_depth_ (RealtimePush (RealtimePop c)) = 0
   /\ InRealtimeContext (RealtimePush (RealtimePop c)) = false)
  /\ (bypass_depth_ c = 0 ->
      bypass_depth_ (BypassPop c) = -1
      /\ bypass_depth_ (BypassPush (BypassPop c)) = 0
      /\ IsBypassed (BypassPush (BypassPop c)) = false)
  /\ (forall (t : tid) (p : addr) (w : World) (m : Mutator),
        objects w !! p = Some c ->
        run t (call p m) w
        = (Returned tt, set_objects (<[p := mutate m c]> (objects w)) w)).
Proof.
  split; [|split].
  - intros H0. unfold InRealtimeContext.
    cbn [RealtimePush RealtimePop realtime_depth_].
    rewrite H0. repeat split; reflexivity.
  - intros H0. unfold IsBypassed. cbn [BypassPush BypassPop bypass_depth_].
    rewrite H0. repeat split; reflexivity.
  - intros t p w m Hp. cbn. by rewrite Hp.
Qed.

Lemma C10_unmatched_pop_witness :
  InRealtimeContext (RealtimePush (RealtimePop Context_new)) = false
  /\ IsBypassed (BypassPush (BypassPop Context_new)) = false
  /\ run 0%nat (call 1%positive MRealtimePop;; call 1%positive MRealtimePush;;
                query 1%positive QInRealtimeContext)
       (world_with true Context_new)
     = (Returned false, world_with true Context_new).
Proof.
  destruct (C10_unmatched_pop Context_new) as (Hr & Hb & _). split; [|split].
  - apply Hr. reflexivity.
  - apply Hb. reflexivity.
  - reflexivity.
Defined.

(** ** The claims about the detector *)

(** C6: a call of [ExpectNotRealtime] made before initialisation is
    complete fails its check, whatever the context holds (also where the
    call would otherwise return at once), and changes nothing; once
    initialisation is complete the check does not fail. *)
Theorem C6_check_initialized (t : tid) (ctx : addr) (name : string) (w : World) :
  (rtsan_initialized w = false ->
   run t (ExpectNotRealtime ctx name) w = (Stopped CheckFailure, w))
  /\ (rtsan_initialized w = true ->
      fst (run t (ExpectNotRealtime ctx name) w) <> Stopped CheckFailure).
Proof.
  unfold ExpectNotRealtime. rewrite run_ExpectNotRealtime_under.
  split; intros ->; [reflexivity|].
  destruct (objects w !! ctx) as [c|]; [|discriminate].
  destruct (InRealtimeContext c && negb (IsBypassed c)); discriminate.
Qed.

Lemma C6_check_initialized_witness :
  run 0%nat (ExpectNotRealtime 1%positive "malloc") (world_with false Context_new)
  = (Stopped CheckFailure, world_with false Context_new)
  /\ fst (run 0%nat (ExpectNotRealtime 1%positive "malloc") (world_with true Context_new))
     <> Stopped CheckFailure.
Proof.
  split.
  - apply (C6_check_initialized 0%nat 1%positive "malloc" (world_with false Context_new)).
    reflexivity.
  - apply (C6_check_initialized 0%nat 1%positive "malloc" (world_with true Context_new)).
    reflexivity.
Defined.

(** C1: in an initialised runtime, a call of [ExpectNotRealtime] on a
    context detects a violation if and only if [InRealtimeContext()] is
    true and [IsBypassed()] is false; in every other case it returns and
    leaves the world, output included, as it found it. *)
Theorem C1_detection_iff (t : tid) (ctx : addr) (name : string) (w : World) (c : Context) :
  rtsan_initialized w = true ->
  objects w !! ctx = Some c ->
  (detects t ctx name w = true
   <-> InRealtimeContext c = true /\ IsBypassed c = false)
  /\ (~ (InRealtimeContext c = true /\ IsBypassed c = false) ->
      run t (ExpectNotRealtime ctx name) w = (Returned tt, w)
      /\ Forall (fun x => reporting (fst x) = false)
                (trace t (ExpectNotRealtime ctx name) w)).
Proof.
  intros Hi Hc.
  destruct (InRealtimeContext c && negb (IsBypassed c)) eqn:Hv.
  - apply andb_true_iff in Hv as [Hr Hb]. apply negb_true_iff in Hb.
    split; [|intros Hn; destruct Hn; by split].
    split; [by intros _|intros _].
    unfold detects. rewrite existsb_exists.
    assert (Hin : OpReport ("ERROR: RealtimeSanitizer: unsafe-library-call" +:+ nl)
                  ∈ fst <$> (trace t (ExpectNotRealtime ctx name) w)).
    { rewrite (trace_ExpectNotRealtime_ops t ctx name w c Hi Hc Hr Hb).
      do 8 apply list_elem_of_further. apply list_elem_of_here. }
    apply list_elem_of_fmap in Hin as (x & Hx & Hin).
    exists x. split; [by apply list_elem_of_In|]. by rewrite <- Hx.
  - assert (Ht := trace_ExpectNotRealtime_fast
                    InvokeViolationDetectedAction t ctx name w c Hi Hc Hv).
    fold (ExpectNotRealtime ctx name) in Ht.
    split; [split|].
    + unfold detects. rewrite Ht. destruct (InRealtimeContext c); discriminate.
    + intros [Hr Hb]. rewrite Hr, Hb in Hv. discriminate.
    + intros _. split.
      * apply (run_ExpectNotRealtime_fast _ t ctx name w c Hi Hc Hv).
      * rewrite Ht. destruct (InRealtimeContext c); repeat constructor.
Qed.

Lemma C1_detection_iff_witness :
  detects 0%nat 1%positive "malloc" (world_with true (mkContext 1 0)) = true
  /\ detects 0%nat 1%positive "malloc" (world_with true (mkContext 1 1)) = false
  /\ run 0%nat (ExpectNotRealtime 1%positive "malloc") (world_with true Context_new)
     = (Returned tt, world_with true Context_new).
Proof.
  split; [|split].
  - apply (C1_detection_iff 0%nat 1%positive "malloc"
             (world_with true (mkContext 1 0)) (mkContext 1 0));
      [reflexivity|reflexivity|]. split; reflexivity.
  - destruct (detects 0%nat 1%positive "malloc" (world_with true (mkContext 1 1))) eqn:Hd;
      [|reflexivity].
    apply (C1_detection_iff 0%nat 1%positive "malloc"
             (world_with true (mkContext 1 1)) (mkContext 1 1)) in Hd;
      [destruct Hd; discriminate|reflexivity|reflexivity].
  - apply (C1_detection_iff 0%nat 1%positive "malloc"
             (world_with true Context_new) Context_new);
      [reflexivity|reflexivity|]. intros [Hr _]. discriminate.
Defined.

(** C2: in an initialised runtime, a call of [ExpectNotRealtime] on a
    context that is in a real-time region and not bypassed writes one
    report (one banner naming the kind unsafe-library-call, one message
    naming the intercepted function, one stack trace) and then ends the
    process in [Die()]: it does not return, and the [BypassPop] that
    closes the detector is never performed, so the context is left with
    the bypass still pushed. *)
Theorem C2_report_then_die (t : tid) (ctx : addr) (name : string) (w : World) (c : Context) :
  rtsan_initialized w = true ->
  objects w !! ctx = Some c ->
  InRealtimeContext c = true ->
  IsBypassed c = false ->
  run t (ExpectNotRealtime ctx name) w =
    (Stopped Died,
     set_output
       (output w ++
        [ OutPrintf (Error (decorator w));
          OutReport ("ERROR: RealtimeSanitizer: unsafe-library-call" +:+ nl);
          OutPrintf (Reason (decorator w));
          OutPrintf ("Intercepted call to real-time unsafe function `"
                     +:+ FunctionName (decorator w) +:+ name +:+ Reason (decorator w)
                     +:+ "` in real-time context!" +:+ nl);
          OutPrintf (Default (decorator w));
          OutStackTrace (caller w).1 (caller w).2 ])
       (set_objects (<[ctx := BypassPush c]> (objects w)) w))
  /\ length (List.filter is_banner (fst <$> trace t (ExpectNotRealtime ctx name) w)) = 1%nat
  /\ OpCall ctx MBypassPop ∉ fst <$> trace t (ExpectNotRealtime ctx name) w.
Proof.
  intros Hi Hc Hr Hb. split; [|split].
  - unfold ExpectNotRealtime.
    rewrite run_ExpectNotRealtime_under, Hi, Hc, Hr, Hb. reflexivity.
  - rewrite (trace_ExpectNotRealtime_ops t ctx name w c Hi Hc Hr Hb). reflexivity.
  - rewrite (trace_ExpectNotRealtime_ops t ctx name w c Hi Hc Hr Hb).
    rewrite !not_elem_of_cons. repeat split; try discriminate.
    apply not_elem_of_nil.
Qed.

Lemma C2_report_then_die_witness :
  fst (run 0%nat (ExpectNotRealtime 1%positive "malloc") (world_with true (mkContext 1 0)))
  = Stopped Died
  /\ output (snd (run 0%nat (ExpectNotRealtime 1%positive "malloc")
                    (world_with true (mkContext 1 0))))
     = [ OutPrintf "";
         OutReport ("ERROR: RealtimeSanitizer: unsafe-library-call" +:+ nl);
         OutPrintf "";
         OutPrintf ("Intercepted call to real-time unsafe function `malloc`"
                    +:+ " in real-time context!" +:+ nl);
         OutPrintf "";
         OutStackTrace 4096 8192 ].
Proof.
  destruct (C2_report_then_die 0%nat 1%positive "malloc"
              (world_with true (mkContext 1 0)) (mkContext 1 0)
              eq_refl eq_refl eq_refl eq_refl) as [Hrun _].
  rewrite Hrun. split; reflexivity.
Defined.

Lemma nested_call_is_noop_intro t ctx w' c' :
  rtsan_initialized w' = true ->
  objects w' !! ctx = Some c' ->
  IsBypassed c' = true ->
  nested_call_is_noop t ctx w'.
Proof.
  intros Hi Hc Hb. split; [by exists c'|]. intros name'.
  apply (run_ExpectNotRealtime_fast _ t ctx name' w' c' Hi Hc).
  rewrite Hb. apply andb_false_r.
Qed.

(** C3 (as the code has it): on the violation path of a context whose
    bypass depth is 0 on entry, [BypassPush] comes before every operation
    of the reporting path, and at every operation after it the context is
    bypassed and a nested call of the detector on it is a no-op. *)
Theorem C3_bypass_before_report (t : tid) (ctx : addr) (name : string) (w : World) (c : Context) :
  rtsan_initialized w = true ->
  objects w !! ctx = Some c ->
  InRealtimeContext c = true ->
  bypass_depth_ c = 0 ->
  (exists pre post,
      trace t (ExpectNotRealtime ctx name) w = pre ++ (OpCall ctx MBypassPush, w) :: post
      /\ Forall (fun x => reporting (fst x) = false) pre
      /\ Forall (fun x => nested_call_is_noop t ctx (snd x)) post)
  /\ bypassed_while_reporting t ctx name w.
Proof.
  intros Hi Hc Hr H0.
  assert (Hb : IsBypassed c = false) by (unfold IsBypassed; by rewrite H0).
  assert (Hb1 : IsBypassed (BypassPush c) = true).
  { unfold IsBypassed. cbn [BypassPush bypass_depth_]. by rewrite H0. }
  pose proof (trace_ExpectNotRealtime_violation
                InvokeViolationDetectedAction t ctx name w c Hi Hc Hr Hb) as Ht.
  cbv zeta in Ht. fold (ExpectNotRealtime ctx name) in Ht.
  set (w1 := set_objects (<[ctx := BypassPush c]> (objects w)) w) in *.
  assert (Hc1 : objects w1 !! ctx = Some (BypassPush c)) by apply lookup_insert_eq.
  assert (Hpost : Forall (fun x => nested_call_is_noop t ctx (snd x))
            ((OpCallerPcBp, w1)
             :: trace t (PrintDiagnostics name (caller w).1 (caller w).2) w1
             ++ trace t (InvokeViolationDetectedAction;; call ctx MBypassPop)
                  (set_output
                     (output w ++ report_lines (decorator w) name (caller w).1 (caller w).2)
                     w1))).
  { apply Forall_cons. split; [|apply Forall_app; split].
    - by apply (nested_call_is_noop_intro t ctx w1 (BypassPush c)).
    - eapply Forall_impl; [apply trace_PrintDiagnostics_frame|].
      intros [e w'] [Hi' Ho']. cbn [snd] in *.
      apply (nested_call_is_noop_intro t ctx w' (BypassPush c)); [| |done].
      + by rewrite Hi'.
      + by rewrite Ho'.
    - cbn. apply Forall_cons. split; [|apply Forall_nil_2]. cbn [snd].
      by apply (nested_call_is_noop_intro t ctx _ (BypassPush c)). }
  split.
  - exists [ (OpIsInitialized, w); (OpQuery ctx QInRealtimeContext, w);
             (OpQuery ctx QIsBypassed, w) ].
    eexists. split; [exact Ht|]. split; [repeat constructor|exact Hpost].
  - intros e w' Hin Hrep. rewrite Ht in Hin. cbn [app] in Hin.
    rewrite Forall_forall in Hpost.
    do 4 (apply elem_of_cons in Hin as [Hin|Hin];
          [injection Hin as -> ->; discriminate|]).
    exact (Hpost (e, w') Hin).
Qed.

Lemma C3_bypass_before_report_witness :
  detects 0%nat 1%positive "malloc" (world_with true (mkContext 1 0)) = true
  /\ bypassed_while_reporting 0%nat 1%positive "malloc" (world_with true (mkContext 1 0)).
Proof.
  split; [reflexivity|].
  apply (C3_bypass_before_report 0%nat 1%positive "malloc"
           (world_with true (mkContext 1 0)) (mkContext 1 0));
    reflexivity.
Defined.

(** C3 as stated fails on a context that is in a region with bypass
    depth -1 (a new context after one unmatched [BypassPop] and one
    [RealtimePush]): the call is on the violation path, its [BypassPush]
    brings the depth to 0 only, and at the first operation of the reporter
    the context is not bypassed, so that a nested call reports again. *)
Lemma C3_counterexample :
  RealtimePush (BypassPop Context_new) = mkContext 1 (-1)
  /\ rtsan_initialized (world_with true (mkContext 1 (-1))) = true
  /\ objects (world_with true (mkContext 1 (-1))) !! 1%positive = Some (mkContext 1 (-1))
  /\ InRealtimeContext (mkContext 1 (-1)) = true
  /\ IsBypassed (mkContext 1 (-1)) = false
  /\ (OpLock, world_with true (mkContext 1 0))
     ∈ trace 0%nat (ExpectNotRealtime 1%positive "malloc")
         (world_with true (mkContext 1 (-1)))
  /\ fst (run 0%nat (ExpectNotRealtime 1%positive "write")
            (world_with true (mkContext 1 0))) = Stopped Died
  /\ ~ bypassed_while_reporting 0%nat 1%positive "malloc"
         (world_with true (mkContext 1 (-1))).
Proof.
  assert (Hin : (OpLock, world_with true (mkContext 1 0))
                ∈ trace 0%nat (ExpectNotRealtime 1%positive "malloc")
                    (world_with true (mkContext 1 (-1)))).
  { do 5 apply list_elem_of_further. apply list_elem_of_here. }
  repeat split; try reflexivity; [exact Hin|].
  intros Hclaim.
  destruct (Hclaim _ _ Hin eq_refl) as [_ Hnested].
  specialize (Hnested "write"). discriminate Hnested.
Qed.

(** C9: when a call of [ExpectNotRealtime] returns, on the fast path or,
    with an action that returns and leaves the context alone in place of
    [Die()], on the violation path, the context holds the counters it
    held on entry. *)
Theorem C9_counters_restored (action : rt unit) (t : tid) (ctx : addr)
    (name : string) (w w' : World) (c : Context) :
  (forall u u', run t action u = (Returned tt, u') ->
                objects u' !! ctx = objects u !! ctx) ->
  objects w !! ctx = Some c ->
  Context_wf c ->
  run t (ExpectNotRealtime_under action ctx name) w = (Returned tt, w') ->
  exists c', objects w' !! ctx = Some c'
             /\ realtime_depth_ c' = realtime_depth_ c
             /\ bypass_depth_ c' = bypass_depth_ c.
Proof.
  intros Haction Hc [_ Hwf] Hrun.
  rewrite run_ExpectNotRealtime_under, Hc in Hrun.
  destruct (rtsan_initialized w); [|discriminate].
  destruct (InRealtimeContext c && negb (IsBypassed c)).
  - destruct (run t action _) as [[[]|why] u'] eqn:Ha; [|discriminate].
    apply Haction in Ha. cbn in Ha. rewrite lookup_insert_eq in Ha.
    cbn in Hrun. rewrite Ha in Hrun. injection Hrun as <-.
    exists (BypassPop (BypassPush c)). cbn. rewrite lookup_insert_eq.
    repeat split.
    replace (wrap_int (bypass_depth_ c + 1) - 1)
      with (wrap_int (bypass_depth_ c + 1) + -1) by lia.
    rewrite wrap_int_add_l.
    replace (bypass_depth_ c + 1 + -1) with (bypass_depth_ c) by lia.
    by apply wrap_int_id.
  - injection Hrun as <-. by exists c.
Qed.

Lemma C9_counters_restored_witness :
  fst (run 0%nat (ExpectNotRealtime_under (mret tt) 1%positive "malloc")
         (world_with true (mkContext 1 0))) = Returned tt
  /\ exists c',
       objects (snd (run 0%nat (ExpectNotRealtime_under (mret tt) 1%positive "malloc")
                       (world_with true (mkContext 1 0)))) !! 1%positive = Some c'
       /\ realtime_depth_ c' = 1
       /\ bypass_depth_ c' = 0.
Proof.
  split; [reflexivity|].
  apply (C9_counters_restored (mret tt) 0%nat 1%positive "malloc"
           (world_with true (mkContext 1 0)) _ (mkContext 1 0)).
  - intros u u' Hu. injection Hu as <-. reflexivity.
  - reflexivity.
  - unfold Context_wf, in_int, INT_MIN, INT_MAX. cbn. lia.
  - vm_compute. reflexivity.
Defined.

(** ** The registry *)

(** A lookup in one equation: the one-time creation of the key (a failed
    creation fails the check), then the thread's value, made on demand. *)
Lemma run_GetContextForThisThread t w :
  key_available w = true ->
  run t GetContextForThisThread w =
  let w0 := match key_once w with
            | ONCE_DONE => w
            | _ => set_key_once ONCE_DONE
                     (set_context_key (Some dtor_InternalFreeWrapper) w)
            end in
  match specific w !! t with
  | Some p => (Returned p, w0)
  | None =>
      let p := fresh (blocks w) in
      (Returned p,
       set_specific (<[t := p]> (specific w))
         (set_objects (<[p := Context_new]> (objects w))
            (set_blocks ({[p]} ∪ blocks w) w0)))
  end.
Proof.
  unfold key_available, GetContextForThisThread, GetContextForThisThreadImpl.
  intros Hk. cbn.
  destruct (key_once w) eqn:Hk1; [|discriminate|]; cbn.
  - rewrite Hk. cbn.
    destruct (specific w !! t) as [p|] eqn:Hs; cbn; [reflexivity|].
    rewrite decide_True by set_solver. reflexivity.
  - destruct (specific w !! t) as [p|] eqn:Hs; cbn; [reflexivity|].
    rewrite decide_True by set_solver. reflexivity.
Qed.

(** When the key cannot be created, the first lookup fails its check. *)
Lemma run_GetContextForThisThread_no_key t w :
  key_once w = PTHREAD_ONCE_INIT ->
  key_create_rc w <> 0 ->
  fst (run t GetContextForThisThread w) = Stopped CheckFailure.
Proof.
  intros Hk Hrc. apply Z.eqb_neq in Hrc.
  unfold GetContextForThisThread, GetContextForThisThreadImpl. cbn.
  rewrite Hk. cbn. rewrite Hrc. cbn. unfold CHECK_EQ, CHECK. rewrite Hrc.
  reflexivity.
Qed.

(** A lookup allocates when, and only when, the thread has no value yet. *)
Lemma allocations_GetContextForThisThread t w :
  key_available w = true ->
  allocations t GetContextForThisThread w =
  match specific w !! t with
  | Some _ => 0%nat
  | None => 1%nat
  end.
Proof.
  unfold key_available, allocations, GetContextForThisThread, GetContextForThisThreadImpl.
  intros Hk. cbn.
  destruct (key_once w) eqn:Hk1; [|discriminate|]; cbn.
  - rewrite Hk. cbn.
    destruct (specific w !! t); cbn; [reflexivity|].
    rewrite decide_True by set_solver. reflexivity.
  - destruct (specific w !! t); cbn; [reflexivity|].
    rewrite decide_True by set_solver. reflexivity.
Qed.

(** Once the key exists and thread [t] has its value, no activity other
    than the end of [t] takes either away. *)
Lemma do_activity_keeps a w w' (t : tid) (p : addr) :
  a <> ActExit t ->
  do_activity a w = (Returned tt, w') ->
  key_once w = ONCE_DONE /\ specific w !! t = Some p ->
  key_once w' = ONCE_DONE /\ specific w' !! t = Some p.
Proof.
  intros Hne Hdo [Hk Hs]. destruct a as [t'|t' q m|t' q name|t']; cbn [do_activity] in Hdo.
  - rewrite run_bind, run_GetContextForThisThread in Hdo
      by (unfold key_available; by rewrite Hk).
    rewrite Hk in Hdo. cbn in Hdo.
    destruct (specific w !! t') as [q|] eqn:Hs'.
    + injection Hdo as <-. by split.
    + injection Hdo as <-. cbn. split; [done|].
      rewrite lookup_insert_ne; [done|]. intros ->. congruence.
  - cbn in Hdo. destruct (objects w !! q); [|discriminate].
    injection Hdo as <-. by split.
  - unfold ExpectNotRealtime in Hdo. rewrite run_ExpectNotRealtime_under in Hdo.
    destruct (rtsan_initialized w); [|discriminate].
    destruct (objects w !! q) as [c|]; [|discriminate].
    destruct (InRealtimeContext c && negb (IsBypassed c)); [discriminate|].
    injection Hdo as <-. by split.
  - assert (t' <> t) by congruence.
    unfold thread_exit in Hdo.
    destruct (context_key w) as [[]|], (specific w !! t') as [q|];
      cbn in Hdo; injection Hdo as <-; cbn; (split; [done|]);
      by rewrite lookup_delete_ne.
Qed.

Lemma after_keeps acts w w' (t : tid) (p : addr) :
  ActExit t ∉ acts ->
  after acts w = Some w' ->
  key_once w = ONCE_DONE /\ specific w !! t = Some p ->
  key_once w' = ONCE_DONE /\ specific w' !! t = Some p.
Proof.
  revert w. induction acts as [|a acts IH]; intros w Hne Hafter Hinv.
  - injection Hafter as <-. exact Hinv.
  - apply not_elem_of_cons in Hne as [Hne Hne'].
    cbn [after] in Hafter.
    destruct (do_activity a w) as [[[]|why] w1] eqn:Hdo; [|discriminate].
    apply (IH w1 Hne' Hafter).
    apply (do_activity_keeps a w w1 t p); [congruence|exact Hdo|exact Hinv].
Qed.

(** Calls taken one at a time: the key is created by the first lookup of
    the process and by no later one. *)
Lemma key_created_by_first_lookup t w :
  key_once w = PTHREAD_ONCE_INIT ->
  key_create_rc w = 0 ->
  exists p w1,
    run t GetContextForThisThread w = (Returned p, w1)
    /\ key_once w1 = ONCE_DONE
    /\ context_key w1 = Some dtor_InternalFreeWrapper
    /\ OpKeyCreate dtor_InternalFreeWrapper ∈ fst <$> trace t GetContextForThisThread w.
Proof.
  intros Hk Hrc.
  rewrite run_GetContextForThisThread by (unfold key_available; by rewrite Hk, Hrc).
  rewrite Hk. cbn.
  destruct (specific w !! t) as [p|] eqn:Hs; eexists _, _; (split; [reflexivity|]);
    (split; [reflexivity|]); (split; [reflexivity|]);
    unfold GetContextForThisThread, GetContextForThisThreadImpl; cbn;
    rewrite Hk; cbn; apply list_elem_of_further, list_elem_of_here.
Qed.

Lemma key_not_created_again t w d :
  key_once w = ONCE_DONE ->
  OpKeyCreate d ∉ fst <$> trace t GetContextForThisThread w.
Proof.
  intros Hk. unfold GetContextForThisThread, GetContextForThisThreadImpl. cbn.
  rewrite Hk. cbn.
  destruct (specific w !! t) as [p|]; cbn.
  - rewrite !not_elem_of_cons. repeat split; try discriminate. apply not_elem_of_nil.
  - rewrite decide_True by set_solver. cbn.
    rewrite !not_elem_of_cons. repeat split; try discriminate. apply not_elem_of_nil.
Qed.

(** C7: the first lookup of a thread (its value for the key is still
    null) allocates one block, constructs a new context in it and makes it
    the thread's value; every later lookup of that thread, whatever any
    thread did in between short of that thread ending, returns the same
    reference, allocates nothing and changes nothing. *)
Theorem C7_one_context_per_thread (t : tid) (w : World) :
  specific w !! t = None ->
  key_available w = true ->
  exists (p : addr) (w1 : World),
    run t GetContextForThisThread w = (Returned p, w1)
    /\ allocations t GetContextForThisThread w = 1%nat
    /\ (p ∉ blocks w)
    /\ blocks w1 = {[p]} ∪ blocks w
    /\ objects w1 = <[p := Context_new]> (objects w)
    /\ specific w1 = <[t := p]> (specific w)
    /\ forall acts w2,
         ActExit t ∉ acts ->
         after acts w1 = Some w2 ->
         run t GetContextForThisThread w2 = (Returned p, w2)
         /\ allocations t GetContextForThisThread w2 = 0%nat.
Proof.
  intros Hs Hk.
  pose proof (run_GetContextForThisThread t w Hk) as Hrun.
  rewrite Hs in Hrun. cbv zeta in Hrun.
  eexists _, _. split; [exact Hrun|].
  split; [by rewrite allocations_GetContextForThisThread, Hs|].
  split; [apply is_fresh|].
  split; [destruct (key_once w); reflexivity|].
  split; [destruct (key_once w); reflexivity|].
  split; [destruct (key_once w); reflexivity|].
  intros acts w2 Hne Hafter.
  destruct (after_keeps acts _ w2 t (fresh (blocks w)) Hne Hafter) as [Hk2 Hs2].
  { split; [|cbn; apply lookup_insert_eq].
    destruct (key_once w) eqn:Hk1; cbn; [reflexivity|reflexivity|exact Hk1]. }
  assert (Ha2 : key_available w2 = true) by (unfold key_available; by rewrite Hk2).
  split.
  - by rewrite (run_GetContextForThisThread t w2 Ha2), Hk2, Hs2.
  - by rewrite (allocations_GetContextForThisThread t w2 Ha2), Hs2.
Qed.

Lemma C7_one_context_per_thread_witness :
  exists (p : addr) (w1 : World),
    run 0%nat GetContextForThisThread world_fresh = (Returned p, w1)
    /\ objects w1 !! p = Some Context_new
    /\ run 0%nat GetContextForThisThread w1 = (Returned p, w1).
Proof.
  destruct (C7_one_context_per_thread 0%nat world_fresh eq_refl eq_refl)
    as (p & w1 & Hrun & _ & _ & _ & Hobj & _ & Hlater).
  exists p, w1. split; [exact Hrun|]. split.
  - rewrite Hobj. apply lookup_insert_eq.
  - apply (Hlater [] w1); [apply not_elem_of_nil|reflexivity].
Defined.

(** ** Threads racing through the registry *)

(** Outside [pthread_once] no operation touches the control or the key. *)
Lemma handle_outside_once t e w x w' :
  in_pthread_once e = false ->
  handle t e w = (Returned x, w') ->
  key_once w' = key_once w /\ context_key w' = context_key w.
Proof.
  intros He Hh. destruct e; try discriminate He; cbn in Hh;
    repeat match type of Hh with
           | context [match ?o with _ => _ end] => destruct o
           end;
    try discriminate Hh; injection Hh as <- <-; by split.
Qed.

(** A thread waits at the entry of [pthread_once] only, and only while
    the control is in progress. *)
Lemma handle_blocked t e w w' :
  handle t e w = (Stopped Blocked, w') ->
  e = OpOnceEnter /\ key_once w = ONCE_IN_PROGRESS.
Proof.
  intros Hh. destruct e; cbn in Hh;
    repeat match type of Hh with
           | context [match ?o with _ => _ end] => destruct o eqn:?
           end;
    try discriminate Hh; by split.
Qed.

Lemma step_thread_inv t pool w ev c' :
  step_thread t (Running pool w) = Some (ev, c') ->
  exists e k,
    pool !! t = Some (Step e k) /\ ev = (t, e, w)
    /\ ((exists x w', handle t e w = (Returned x, w')
                      /\ c' = Running (<[t := k x]> pool) w')
        \/ (exists why w', handle t e w = (Stopped why, w')
                           /\ why <> Blocked /\ c' = Ended why w')).
Proof.
  cbn. intros Hs. destruct (pool !! t) as [[a|e k]|]; try discriminate Hs.
  exists e, k. split; [reflexivity|].
  destruct (handle t e w) as [[x|why] w'] eqn:Hh.
  - injection Hs as <- <-. split; [reflexivity|]. left. by exists x, w'.
  - destruct why; try discriminate Hs; injection Hs as <- <-;
      (split; [reflexivity|]); right; eexists _, _; by repeat split.
Qed.

Lemma key_creations_snoc l ev :
  key_creations (l ++ [ev]) =
  (key_creations l + if is_key_create (ev_op ev) then 1 else 0)%nat.
Proof.
  unfold key_creations. rewrite fmap_app, List.filter_app, length_app. cbn.
  by destruct (is_key_create (ev_op ev)).
Qed.

Lemma is_key_create_in_once e : is_key_create e = true -> in_pthread_once e = true.
Proof. by destruct e. Qed.

(** With the control in progress: one thread, inside [pthread_once]. *)
Lemma setup_once_one_thread l t0 :
  (forall ev, ev ∈ l -> ev_thread ev = t0 /\ in_pthread_once (ev_op ev) = true) ->
  (key_creations l <= 1)%nat ->
  setup_once l.
Proof.
  intros Hl Hn. split; [exact Hn|]. split; [|split].
  - intros ev Hin Hout. destruct (Hl ev Hin) as [_ Hin']. congruence.
  - intros ev ev' Hin Hin' _ _.
    destruct (Hl ev Hin) as [-> _], (Hl ev' Hin') as [-> _]. reflexivity.
  - intros (ev & Hin & Hout). destruct (Hl ev Hin) as [_ Hin']. congruence.
Qed.

(** With the control done: one more operation that creates no key. *)
Lemma setup_once_snoc l ev :
  setup_once l ->
  key_creations l = 1%nat ->
  is_key_create (ev_op ev) = false ->
  key_once (ev_world ev) = ONCE_DONE ->
  context_key (ev_world ev) = Some dtor_InternalFreeWrapper ->
  setup_once (l ++ [ev]) /\ key_creations (l ++ [ev]) = 1%nat.
Proof.
  intros (Hn & Hout & Hone & Hex) Hl Hev Hk Hc.
  assert (Hl' : key_creations (l ++ [ev]) = 1%nat).
  { rewrite key_creations_snoc, Hev. lia. }
  split; [|exact Hl']. split; [lia|]. split; [|split].
  - intros ev' [Hin| ->%list_elem_of_singleton]%elem_of_app; [by apply Hout|by split].
  - intros ev1 ev2 [Hin1| ->%list_elem_of_singleton]%elem_of_app
                   [Hin2| ->%list_elem_of_singleton]%elem_of_app H1 H2;
      try congruence. by apply Hone.
  - intros _. exact Hl'.
Qed.

Lemma next_outside_once e (x : Answer e) :
  in_pthread_once e = false -> next e x = Past.
Proof. by destruct e. Qed.

Lemma not_key_create_outside_once e :
  in_pthread_once e = false -> is_key_create e = false.
Proof. by destruct e. Qed.

(** Every step keeps the invariant. *)
Lemma race_invariant_step l c t ev c' :
  race_invariant l c ->
  step_thread t c = Some (ev, c') ->
  race_invariant (l ++ [ev]) c'.
Proof.
  destruct c as [pool w|]; [|discriminate].
  intros HG Hs. apply step_thread_inv in Hs as (e & k & Hp & -> & Hcase).
  unfold race_invariant in HG. destruct (key_once w) eqn:Hk.
  - (* the control is untouched: the thread enters and takes it *)
    destruct HG as [-> Hall]. destruct (Hall t _ Hp) as [Hal Hnext].
    destruct e; try discriminate Hal.
    cbn in Hcase. rewrite Hk in Hcase.
    destruct Hcase as [(x & w' & Hh & ->)|(why & w' & Hh & _)]; [|discriminate].
    injection Hh as <- <-. cbn.
    exists t, (k true). split; [apply lookup_insert_eq|].
    split; [|split].
    + intros t' p Hne Hp'. rewrite lookup_insert_ne in Hp' by done. eauto.
    + intros ev ->%list_elem_of_singleton. by split.
    + left. split; [apply (Hnext true)|reflexivity].
  - (* the control is in progress *)
    destruct HG as (t0 & p0 & Hp0 & Hothers & Hevs & Hph).
    destruct (decide (t = t0)) as [->|Hne].
    + rewrite Hp0 in Hp. injection Hp as ->.
      destruct Hph as [[[Hal Hnext] Hn]|[([Hal Hnext] & Hc & Hn)|[[Hal Hnext] Hn]]];
        destruct e; try discriminate Hal; cbn in Hcase.
      * (* it creates the key *)
        destruct Hcase as [(x & w' & Hh & ->)|(why & w' & Hh & _)];
          [|by destruct (key_create_rc w =? 0)].
        assert (Hk' : key_once w' = ONCE_IN_PROGRESS).
        { destruct (key_create_rc w =? 0); injection Hh as <- <-; exact Hk. }
        cbn. rewrite Hk'.
        exists t0, (k x). split; [apply lookup_insert_eq|]. split; [|split].
        -- intros t' p Hne Hp'. rewrite lookup_insert_ne in Hp' by done. eauto.
        -- intros ev [Hin| ->%list_elem_of_singleton]%elem_of_app; [by apply Hevs|by split].
        -- rewrite key_creations_snoc, Hn. cbn.
           specialize (Hnext x). cbn in Hnext.
           destruct (key_create_rc w =? 0) eqn:Hrc; injection Hh as <- <-.
           ++ right; left. repeat split; [exact Hnext|by destruct destructor].
           ++ rewrite Hrc in Hnext. right; right. by split.
      * (* it marks the control done *)
        destruct Hcase as [(x & w' & Hh & ->)|(why & w' & Hh & _)]; [|discriminate].
        injection Hh as <- <-. cbn.
        assert (Hn' : key_creations (l ++ [(t0, OpOnceDone, w)]) = 1%nat).
        { rewrite key_creations_snoc, Hn. reflexivity. }
        split; [|split; [exact Hn'|split; [exact Hc|]]].
        -- apply (setup_once_one_thread _ t0); [|lia].
           intros ev [Hin| ->%list_elem_of_singleton]%elem_of_app; [by apply Hevs|by split].
        -- intros t' p Hp'. destruct (decide (t' = t0)) as [->|Hne].
           ++ rewrite lookup_insert_eq in Hp'. injection Hp' as <-.
              right. apply (Hnext tt).
           ++ rewrite lookup_insert_ne in Hp' by done. left. eauto.
      * (* it fails the check on the key *)
        destruct Hcase as [(x & w' & Hh & ->)|(why & w' & Hh & _ & ->)]; [discriminate|].
        cbn. apply (setup_once_one_thread _ t0).
        -- intros ev [Hin| ->%list_elem_of_singleton]%elem_of_app; [by apply Hevs|by split].
        -- rewrite key_creations_snoc, Hn. cbn. lia.
    + (* any other thread waits *)
      destruct (Hothers t _ Hne Hp) as [Hal _].
      destruct e; try discriminate Hal. cbn in Hcase. rewrite Hk in Hcase.
      destruct Hcase as [(x & w' & Hh & _)|(why & w' & Hh & Hw & _)];
        [discriminate|]. injection Hh as <- <-. done.
  - (* the control is done *)
    destruct HG as (Hset & Hn & Hc & Hall).
    destruct (Hall t _ Hp) as [[Hal Hnext]|[Hal Hnext]].
    + (* a thread at the entry goes through *)
      destruct e; try discriminate Hal. cbn in Hcase. rewrite Hk in Hcase.
      destruct Hcase as [(x & w' & Hh & ->)|(why & w' & Hh & _)]; [|discriminate].
      injection Hh as <- <-. cbn. rewrite Hk.
      destruct (setup_once_snoc l (t, OpOnceEnter, w) Hset Hn eq_refl Hk Hc)
        as [Hset' Hn'].
      split; [exact Hset'|]. split; [exact Hn'|]. split; [exact Hc|].
      intros t' p Hp'. destruct (decide (t' = t)) as [->|Hne].
      * rewrite lookup_insert_eq in Hp'. injection Hp' as <-.
        right. apply (Hnext false).
      * rewrite lookup_insert_ne in Hp' by done. eauto.
    + (* a thread past [pthread_once] goes on *)
      apply negb_true_iff in Hal.
      destruct (setup_once_snoc l (t, e, w) Hset Hn
                  (not_key_create_outside_once e Hal) Hk Hc) as [Hset' Hn'].
      destruct Hcase as [(x & w' & Hh & ->)|(why & w' & Hh & _ & ->)];
        [|exact Hset'].
      destruct (handle_outside_once t e w x w' Hal Hh) as [Hk' Hc'].
      cbn. rewrite Hk', Hk.
      split; [exact Hset'|]. split; [exact Hn'|]. split; [congruence|].
      intros t' p Hp'. destruct (decide (t' = t)) as [->|Hne].
      * rewrite lookup_insert_eq in Hp'. injection Hp' as <-.
        right. specialize (Hnext x). by rewrite next_outside_once in Hnext.
      * rewrite lookup_insert_ne in Hp' by done. eauto.
Qed.

(** A lookup goes through the phases in order. *)
Lemma follows_GetContextForThisThread : follows AtOnce GetContextForThisThread.
Proof.
  unfold GetContextForThisThread, GetContextForThisThreadImpl. cbn.
  split; [reflexivity|]. intros [|]; cbn.
  - split; [reflexivity|]. intros rc. unfold CHECK_EQ, CHECK.
    destruct (rc =? 0); cbn.
    + split; [reflexivity|]. intros _. split; [reflexivity|].
      intros [p|]; cbn; [reflexivity|].
      split; [reflexivity|]. intros p. split; [reflexivity|].
      intros _. split; [reflexivity|]. intros _. reflexivity.
    + split; [reflexivity|]. intros [].
  - split; [reflexivity|].
    intros [p|]; cbn; [reflexivity|].
    split; [reflexivity|]. intros p. split; [reflexivity|].
    intros _. split; [reflexivity|]. intros _. reflexivity.
Qed.

Lemma step_thread_eq t pool w e k :
  pool !! t = Some (Step e k) ->
  step_thread t (Running pool w) =
  match handle t e w with
  | (Returned x, w') => Some ((t, e, w), Running (<[t := k x]> pool) w')
  | (Stopped Blocked, _) => None
  | (Stopped why, w') => Some ((t, e, w), Ended why w')
  end.
Proof. intros Hp. cbn. by rewrite Hp. Qed.

Lemma race_invariant_progress l c : race_invariant l c -> progress c.
Proof.
  destruct c as [pool w|]; [|done]. unfold race_invariant, progress.
  destruct (key_once w) eqn:Hk.
  - intros [_ Hall] t e k Hp. destruct (Hall t _ Hp) as [Hal _].
    destruct e; try discriminate Hal.
    rewrite (step_thread_eq t pool w _ k Hp). cbn. rewrite Hk. by eexists.
  - intros (t0 & p0 & Hp0 & Hothers & _ & Hph). exists t0. split.
    + destruct p0 as [a|e k];
        [by destruct Hph as [[Hf _]|[(Hf & _)|[Hf _]]]|].
      rewrite (step_thread_eq t0 pool w e k Hp0).
      destruct Hph as [[[Hal _] _]|[([Hal _] & _)|[[Hal _] _]]];
        destruct e; try discriminate Hal; cbn; [|by eexists..].
      destruct (key_create_rc w =? 0); by eexists.
    + intros t Hne. cbn. destruct (pool !! t) as [[a|e k]|] eqn:Hp; [done| |done].
      destruct (Hothers t _ Hne Hp) as [Hal _].
      destruct e; try discriminate Hal. cbn. by rewrite Hk.
  - intros (_ & _ & _ & Hall) t e k Hp.
    rewrite (step_thread_eq t pool w e k Hp).
    destruct (Hall t _ Hp) as [[Hal _]|[Hal _]].
    + destruct e; try discriminate Hal. cbn. rewrite Hk. by eexists.
    + apply negb_true_iff in Hal.
      destruct (handle t e w) as [[x|why] w'] eqn:Hh; [by eexists|].
      destruct why; try by eexists.
      apply handle_blocked in Hh as [-> _]. discriminate Hal.
Qed.

Lemma race_invariant_setup_once l c : race_invariant l c -> setup_once l.
Proof.
  destruct c as [pool w|]; [|done]. cbn. destruct (key_once w).
  - intros [-> _]. split; [cbn; lia|].
    split; [by intros ev ?%elem_of_nil|].
    split; [by intros ev ev' ?%elem_of_nil|].
    by intros (ev & ?%elem_of_nil & _).
  - intros (t0 & p0 & _ & _ & Hevs & Hph).
    apply (setup_once_one_thread l t0 Hevs).
    destruct Hph as [[_ ->]|[(_ & _ & ->)|[_ ->]]]; lia.
  - by intros (Hset & _).
Qed.

Lemma execution_invariant c0 l c :
  race_invariant [] c0 -> execution c0 l c -> race_invariant l c.
Proof.
  intros H0 Hex. induction Hex as [c|c l c1 t ev c2 Hex IH Hs]; [exact H0|].
  apply (race_invariant_step l c1 t ev c2); [by apply IH|exact Hs].
Qed.

Lemma execution_cons c t ev c' l c'' :
  step_thread t c = Some (ev, c') ->
  execution c' l c'' ->
  execution c (ev :: l) c''.
Proof.
  intros Hs Hex. induction Hex as [c'|c' l c1 t1 ev1 c2 Hex IH Hs1].
  - apply (execution_snoc c [] c t ev c'); [apply execution_refl|exact Hs].
  - change (ev :: l ++ [ev1]) with ((ev :: l) ++ [ev1]).
    apply (execution_snoc c (ev :: l) c1 t1 ev1 c2); [by apply IH|exact Hs1].
Qed.

Lemma schedule_execution ts c :
  execution c (schedule ts c).1 (schedule ts c).2.
Proof.
  revert c. induction ts as [|t ts IH]; intros c; [apply execution_refl|].
  cbn [schedule]. destruct (step_thread t c) as [[ev c']|] eqn:Hs; [|apply IH].
  specialize (IH c'). destruct (schedule ts c') as [l c'']. cbn in *.
  by apply (execution_cons c t ev c').
Qed.

(** C8: when any number of threads race through their first lookup, in
    whatever order their operations are taken, the key is created at most
    once, and once as soon as any thread is past [pthread_once]; while
    the control is in progress only the thread that took it performs
    operations, and no other thread can move; a thread performs what
    comes after [pthread_once] only when the control is done and the key
    is in place; and with the control done no thread waits. *)
Theorem C8_setup_runs_once (T : gset tid) (w0 : World)
    (l : list (tid * Prim * World)) (c : Config) :
  key_once w0 = PTHREAD_ONCE_INIT ->
  execution (Running (gset_to_gmap GetContextForThisThread T) w0) l c ->
  setup_once l /\ progress c.
Proof.
  intros Hk Hex.
  assert (HG : race_invariant l c).
  { apply (execution_invariant _ l c) in Hex; [exact Hex|].
    unfold race_invariant. rewrite Hk.
    split; [reflexivity|]. intros t p [_ <-]%lookup_gset_to_gmap_Some.
    apply follows_GetContextForThisThread. }
  split; [by apply (race_invariant_setup_once l c)|by apply (race_invariant_progress l c)].
Qed.


Lemma C8_setup_runs_once_witness :
  setup_once (schedule racing_turns two_racing).1
  /\ progress (schedule racing_turns two_racing).2
  /\ ev_thread <$> (schedule racing_turns two_racing).1
     = [0; 0; 0; 1; 1; 1; 1; 1; 0; 0; 0; 0]%nat
  /\ key_creations (schedule racing_turns two_racing).1 = 1%nat.
Proof.
  destruct (C8_setup_runs_once {[0%nat; 1%nat]} world_fresh
              (schedule racing_turns two_racing).1
              (schedule racing_turns two_racing).2
              eq_refl (schedule_execution racing_turns two_racing))
    as [Hset Hprog].
  split; [exact Hset|]. split; [exact Hprog|]. split; reflexivity.
Defined.

(** ** Sequences of member calls *)

Lemma run_call t p m w c :
  objects w !! p = Some c ->
  run t (call p m) w = (Returned tt, set_objects (<[p := mutate m c]> (objects w)) w).
Proof. intros Hp. cbn. by rewrite Hp. Qed.

(** With room left, a member call adds its delta to each counter and
    leaves room for the calls that follow. *)
Lemma mutate_room m n c :
  room (S n) (realtime_depth_ c) ->
  room (S n) (bypass_depth_ c) ->
  realtime_depth_ (mutate m c) = realtime_depth_ c + realtime_delta m
  /\ bypass_depth_ (mutate m c) = bypass_depth_ c + bypass_delta m
  /\ room n (realtime_depth_ (mutate m c))
  /\ room n (bypass_depth_ (mutate m c)).
Proof.
  unfold room. intros Hr Hb.
  assert (Hid : forall z d, INT_MIN + Z.of_nat (S n) <= z <= INT_MAX - Z.of_nat (S n) ->
                            -1 <= d <= 1 -> wrap_int (z + d) = z + d).
  { intros z d Hz Hd. apply wrap_int_id. unfold in_int. lia. }
  destruct m; cbn [mutate RealtimePush RealtimePop BypassPush BypassPop
                   realtime_depth_ bypass_depth_ realtime_delta bypass_delta];
    rewrite ?Z.add_0_r;
    try replace (realtime_depth_ c - 1) with (realtime_depth_ c + -1) by lia;
    try replace (bypass_depth_ c - 1) with (bypass_depth_ c + -1) by lia;
    rewrite ?(Hid (realtime_depth_ c)), ?(Hid (bypass_depth_ c)) by (done || lia);
    lia.
Qed.

(** X1: any sequence of [RealtimePush], [RealtimePop], [BypassPush] and
    [BypassPop] calls through one reference, in any order, too short to
    take a counter out of the range of [int], returns and leaves each
    counter at its value on entry plus its pushes minus its pops; if the
    pushes and pops of a counter balance, its predicate answers as on
    entry; no other context and no output is touched. *)
Theorem member_calls_compose (t : tid) (p : addr) (ms : list Mutator)
    (w : World) (c : Context) :
  objects w !! p = Some c ->
  room (length ms) (realtime_depth_ c) ->
  room (length ms) (bypass_depth_ c) ->
  exists w' c',
    run t (calls p ms) w = (Returned tt, w')
    /\ objects w' !! p = Some c'
    /\ realtime_depth_ c' = realtime_depth_ c + net realtime_delta ms
    /\ bypass_depth_ c' = bypass_depth_ c + net bypass_delta ms
    /\ (net realtime_delta ms = 0 -> InRealtimeContext c' = InRealtimeContext c)
    /\ (net bypass_delta ms = 0 -> IsBypassed c' = IsBypassed c)
    /\ (forall q, q <> p -> objects w' !! q = objects w !! q)
    /\ output w' = output w.
Proof.
  revert w c. induction ms as [|m ms IH]; intros w c Hp Hr Hb.
  - exists w, c. cbn. rewrite !Z.add_0_r. by repeat split.
  - cbn [calls]. rewrite run_bind, (run_call t p m w c Hp).
    destruct (mutate_room m (length ms) c Hr Hb) as (Hmr & Hmb & Hr1 & Hb1).
    destruct (IH (set_objects (<[p := mutate m c]> (objects w)) w) (mutate m c))
      as (w' & c' & Hrun & Hp' & Hr' & Hb' & _ & _ & Hq & Ho);
      [apply lookup_insert_eq|exact Hr1|exact Hb1|].
    assert (Hr2 : realtime_depth_ c' = realtime_depth_ c + net realtime_delta (m :: ms)).
    { rewrite Hr', Hmr.
      change (net realtime_delta (m :: ms)) with (realtime_delta m + net realtime_delta ms).
      lia. }
    assert (Hb2 : bypass_depth_ c' = bypass_depth_ c + net bypass_delta (m :: ms)).
    { rewrite Hb', Hmb.
      change (net bypass_delta (m :: ms)) with (bypass_delta m + net bypass_delta ms).
      lia. }
    exists w', c'. split; [exact Hrun|]. split; [exact Hp'|].
    split; [exact Hr2|]. split; [exact Hb2|].
    split; [|split; [|split]].
    + intros Hn. unfold InRealtimeContext. by rewrite Hr2, Hn, Z.add_0_r.
    + intros Hn. unfold IsBypassed. by rewrite Hb2, Hn, Z.add_0_r.
    + intros q Hne. rewrite (Hq q Hne). cbn. by rewrite lookup_insert_ne.
    + rewrite Ho. reflexivity.
Qed.

Lemma member_calls_compose_witness :
  exists w' c',
    run 0%nat (calls 1%positive [MRealtimePush; MBypassPush; MRealtimePop;
                                 MRealtimePush; MBypassPop])
        (world_with true Context_new) = (Returned tt, w')
    /\ objects w' !! 1%positive = Some c'
    /\ realtime_depth_ c' = 1
    /\ bypass_depth_ c' = 0
    /\ IsBypassed c' = false.
Proof.
  destruct (member_calls_compose 0%nat 1%positive
              [MRealtimePush; MBypassPush; MRealtimePop; MRealtimePush; MBypassPop]
              (world_with true Context_new) Context_new)
    as (w' & c' & Hrun & Hp & Hr & Hb & _ & Hbal & _).
  - reflexivity.
  - unfold room, INT_MIN, INT_MAX. cbn. lia.
  - unfold room, INT_MIN, INT_MAX. cbn. lia.
  - exists w', c'. split; [exact Hrun|]. split; [exact Hp|].
    split; [exact Hr|]. split; [exact Hb|]. apply Hbal. reflexivity.
Defined.

(** ** The detector inside a bypass scope, and what it leaves alone *)

(** X2: a call of [ExpectNotRealtime] made between [BypassPush] and
    [BypassPop] on a context that was not bypassed below zero returns
    without a report, whatever the real-time depth, and the three calls
    together leave the context, every other context and the output as
    they were. *)
Theorem bypass_scope_suppresses (t : tid) (ctx : addr) (name : string)
    (w : World) (c : Context) :
  rtsan_initialized w = true ->
  objects w !! ctx = Some c ->
  0 <= bypass_depth_ c < INT_MAX ->
  exists w',
    run t (call ctx MBypassPush;; ExpectNotRealtime ctx name;; call ctx MBypassPop) w
    = (Returned tt, w')
    /\ objects w' !! ctx = Some c
    /\ (forall q, q <> ctx -> objects w' !! q = objects w !! q)
    /\ output w' = output w.
Proof.
  intros Hi Hc Hb.
  assert (Hpush : wrap_int (bypass_depth_ c + 1) = bypass_depth_ c + 1).
  { apply wrap_int_id. unfold in_int, INT_MIN, INT_MAX in *. lia. }
  assert (Hb1 : IsBypassed (BypassPush c) = true).
  { unfold IsBypassed. cbn [BypassPush bypass_depth_]. rewrite Hpush.
    apply Z.gtb_lt. lia. }
  assert (Hback : BypassPop (BypassPush c) = c).
  { destruct c as [r b]. unfold BypassPop, BypassPush. cbn in *.
    rewrite Hpush. f_equal. replace (b + 1 - 1) with b by lia.
    apply wrap_int_id. unfold in_int, INT_MIN, INT_MAX in *. lia. }
  set (w1 := set_objects (<[ctx := mutate MBypassPush c]> (objects w)) w).
  assert (Hc1 : objects w1 !! ctx = Some (BypassPush c)) by apply lookup_insert_eq.
  eexists. split; [|split; [|split]].
  - rewrite run_bind, (run_call t ctx MBypassPush w c Hc). fold w1.
    rewrite run_bind.
    unfold ExpectNotRealtime.
    rewrite (run_ExpectNotRealtime_fast _ t ctx name w1 (BypassPush c) Hi Hc1)
      by (rewrite Hb1; apply andb_false_r).
    apply (run_call t ctx MBypassPop w1 (BypassPush c) Hc1).
  - cbn. rewrite lookup_insert_eq. by rewrite Hback.
  - intros q Hne. cbn. by rewrite !lookup_insert_ne.
  - reflexivity.
Qed.

Lemma bypass_scope_suppresses_witness :
  exists w',
    run 0%nat (call 1%positive MBypassPush;;
               ExpectNotRealtime 1%positive "malloc";;
               call 1%positive MBypassPop)
        (world_with true (mkContext 1 0)) = (Returned tt, w')
    /\ objects w' !! 1%positive = Some (mkContext 1 0)
    /\ output w' = [].
Proof.
  destruct (bypass_scope_suppresses 0%nat 1%positive "malloc"
              (world_with true (mkContext 1 0)) (mkContext 1 0))
    as (w' & Hrun & Hc & _ & Ho).
  - reflexivity.
  - reflexivity.
  - unfold INT_MAX. cbn. lia.
  - exists w'. split; [exact Hrun|]. split; [exact Hc|exact Ho].
Defined.

(** X3: however a call of [ExpectNotRealtime] ends (check failure,
    return, or report and death), it leaves the registry as it was: the
    threads' values for the key, the allocated blocks, the once control
    and the key are unchanged, and so is every context but the one it was
    called on. *)
Theorem detector_frame (t : tid) (ctx : addr) (name : string) (w : World) :
  specific (snd (run t (ExpectNotRealtime ctx name) w)) = specific w
  /\ blocks (snd (run t (ExpectNotRealtime ctx name) w)) = blocks w
  /\ key_once (snd (run t (ExpectNotRealtime ctx name) w)) = key_once w
  /\ context_key (snd (run t (ExpectNotRealtime ctx name) w)) = context_key w
  /\ forall q, q <> ctx ->
       objects (snd (run t (ExpectNotRealtime ctx name) w)) !! q = objects w !! q.
Proof.
  unfold ExpectNotRealtime. rewrite run_ExpectNotRealtime_under.
  destruct (rtsan_initialized w); [|by repeat split].
  destruct (objects w !! ctx) as [c|]; [|by repeat split].
  destruct (InRealtimeContext c && negb (IsBypassed c)); [|by repeat split].
  cbn. repeat split. intros q Hne. by rewrite lookup_insert_ne.
Qed.

(** X4: a call of [ExpectNotRealtime] that does not report performs at
    most three operations, all of them reads: the query of the
    initialisation flag and the predicates of its own context; and, [&&]
    being lazy, it reads [IsBypassed()] only if [InRealtimeContext()] was
    true. *)
Theorem fast_path_reads_only (t : tid) (ctx : addr) (name : string)
    (w : World) (c : Context) :
  rtsan_initialized w = true ->
  objects w !! ctx = Some c ->
  InRealtimeContext c && negb (IsBypassed c) = false ->
  (forall e, e ∈ fst <$> trace t (ExpectNotRealtime ctx name) w ->
             e = OpIsInitialized \/ exists q, e = OpQuery ctx q)
  /\ (OpQuery ctx QIsBypassed ∈ fst <$> trace t (ExpectNotRealtime ctx name) w
      <-> InRealtimeContext c = true)
  /\ (length (trace t (ExpectNotRealtime ctx name) w) <= 3)%nat.
Proof.
  intros Hi Hc Hv. unfold ExpectNotRealtime.
  rewrite (trace_ExpectNotRealtime_fast _ t ctx name w c Hi Hc Hv).
  destruct (InRealtimeContext c); cbn.
  - split; [|split; [|lia]].
    + intros e. rewrite !elem_of_cons, elem_of_nil.
      intros [->|[->|[->|[]]]]; [by left|right; by eexists..].
    + split; [done|]. intros _. rewrite !elem_of_cons. by right; right; left.
  - split; [|split; [|lia]].
    + intros e. rewrite !elem_of_cons, elem_of_nil.
      intros [->|[->|[]]]; [by left|right; by eexists].
    + rewrite !elem_of_cons, elem_of_nil. split; [|done].
      by intros [|[|[]]].
Qed.

Lemma fast_path_reads_only_witness :
  (OpQuery 1%positive QIsBypassed
     ∈ fst <$> trace 0%nat (ExpectNotRealtime 1%positive "malloc")
                 (world_with true (mkContext 2 1))
   <-> InRealtimeContext (mkContext 2 1) = true)
  /\ (length (trace 0%nat (ExpectNotRealtime 1%positive "malloc")
                (world_with true (mkContext 2 1))) <= 3)%nat.
Proof.
  destruct (fast_path_reads_only 0%nat 1%positive "malloc"
              (world_with true (mkContext 2 1)) (mkContext 2 1))
    as (_ & Hlazy & Hlen); [reflexivity..|].
  split; [exact Hlazy|exact Hlen].
Defined.

(** X5: in every world and however it ends, a call of
    [ExpectNotRealtime] keeps the discipline of the report lock: every
    write to the error output is made between the taking of the lock and
    its release, the lock is not taken twice, and it is released before
    the process dies or the call returns. *)
Theorem detector_keeps_lock_discipline (t : tid) (ctx : addr) (name : string)
    (w : World) :
  lock_discipline false (fst <$> trace t (ExpectNotRealtime ctx name) w) = true.
Proof.
  destruct (rtsan_initialized w) eqn:Hi;
    [destruct (objects w !! ctx) as [c|] eqn:Hc;
     [destruct (InRealtimeContext c && negb (IsBypassed c)) eqn:Hv|]|].
  - apply andb_true_iff in Hv as [Hr Hb]. apply negb_true_iff in Hb.
    by rewrite (trace_ExpectNotRealtime_ops t ctx name w c Hi Hc Hr Hb).
  - unfold ExpectNotRealtime.
    rewrite (trace_ExpectNotRealtime_fast _ t ctx name w c Hi Hc Hv).
    by destruct (InRealtimeContext c).
  - unfold ExpectNotRealtime, ExpectNotRealtime_under. cbn. rewrite Hi. cbn.
    by rewrite Hc.
  - unfold ExpectNotRealtime, ExpectNotRealtime_under. cbn. by rewrite Hi.
Qed.

(** ** The report and the function it names *)

Lemma string_app_inv_head (a b c : string) : a +:+ b = a +:+ c -> b = c.
Proof.
  induction a as [|ch a IH]; [done|].
  change (String ch (a +:+ b) = String ch (a +:+ c) -> b = c).
  intros [= H]. by apply IH.
Qed.

Lemma string_length_app (a b : string) :
  String.length (a +:+ b) = (String.length a + String.length b)%nat.
Proof.
  induction a as [|ch a IH]; [reflexivity|].
  change (S (String.length (a +:+ b)) = S (String.length a + String.length b)).
  by rewrite IH.
Qed.

Lemma string_app_inv_tail (a b c : string) : b +:+ a = c +:+ a -> b = c.
Proof.
  revert c. induction b as [|ch b IH]; intros [|ch' c] H.
  - reflexivity.
  - apply (f_equal String.length) in H.
    change (String ch' c +:+ a) with (String ch' (c +:+ a)) in H.
    change (String.length a = S (String.length (c +:+ a))) in H.
    rewrite string_length_app in H. lia.
  - apply (f_equal String.length) in H.
    change (S (String.length (b +:+ a)) = String.length a) in H.
    rewrite string_length_app in H. lia.
  - change (String ch (b +:+ a) = String ch' (c +:+ a)) in H.
    injection H as -> H. f_equal. by apply IH.
Qed.

(** X6: the report of [PrintDiagnostics] tells the intercepted functions
    apart: from one world, with the same location and whatever the
    escape sequences of the decorator, the reports for two different
    function names leave different outputs. *)
Theorem report_names_the_function (t : tid) (name1 name2 : string)
    (pc bp : uptr) (w : World) :
  name1 <> name2 ->
  output (snd (run t (PrintDiagnostics name1 pc bp) w))
  <> output (snd (run t (PrintDiagnostics name2 pc bp) w)).
Proof.
  intros Hne. rewrite !run_PrintDiagnostics. cbn [snd]. unfold set_output. cbn [output].
  intros H%app_inv_head. unfold report_lines in H.
  injection H as H. apply Hne.
  apply string_app_inv_head, string_app_inv_head in H.
  by apply string_app_inv_tail in H.
Qed.

Lemma report_names_the_function_witness :
  output (snd (run 0%nat (PrintDiagnostics "malloc" 4096 8192) world_fresh))
  <> output (snd (run 0%nat (PrintDiagnostics "free" 4096 8192) world_fresh)).
Proof.
  apply (report_names_the_function 0%nat "malloc" "free" 4096 8192 world_fresh).
  discriminate.
Defined.

(** ** The registry: failure of the key, and the contexts of the threads *)

(** X7: when the once control is untouched and [pthread_key_create]
    fails, a lookup ends the process in the check on its return code: it
    does not read the thread's value for the key, allocates nothing, and
    creates no context and no key. *)
Theorem lookup_without_key_fails (t : tid) (w : World) :
  key_once w = PTHREAD_ONCE_INIT ->
  key_create_rc w <> 0 ->
  fst (run t GetContextForThisThread w) = Stopped CheckFailure
  /\ allocations t GetContextForThisThread w = 0%nat
  /\ (OpGetSpecific ∉ fst <$> trace t GetContextForThisThread w)
  /\ specific (snd (run t GetContextForThisThread w)) = specific w
  /\ blocks (snd (run t GetContextForThisThread w)) = blocks w
  /\ objects (snd (run t GetContextForThisThread w)) = objects w
  /\ context_key (snd (run t GetContextForThisThread w)) = context_key w.
Proof.
  intros Hk Hrc. apply Z.eqb_neq in Hrc.
  unfold allocations, GetContextForThisThread, GetContextForThisThreadImpl. cbn.
  rewrite Hk. cbn. rewrite Hrc. cbn. unfold CHECK_EQ, CHECK. rewrite Hrc. cbn.
  split; [reflexivity|]. split; [reflexivity|].
  split; [|by repeat split].
  rewrite !not_elem_of_cons. repeat split; try discriminate. apply not_elem_of_nil.
Qed.

Lemma lookup_without_key_fails_witness :
  fst (run 0%nat GetContextForThisThread world_no_keys) = Stopped CheckFailure
  /\ allocations 0%nat GetContextForThisThread world_no_keys = 0%nat.
Proof.
  destruct (lookup_without_key_fails 0%nat world_no_keys) as (Hstop & Hnone & _).
  - reflexivity.
  - discriminate.
  - split; [exact Hstop|exact Hnone].
Defined.

Lemma lookup_returns_available t w p w' :
  run t GetContextForThisThread w = (Returned p, w') -> key_available w = true.
Proof.
  unfold key_available, GetContextForThisThread, GetContextForThisThreadImpl. cbn.
  destruct (key_once w) eqn:Hk; cbn; [|discriminate|done].
  destruct (key_create_rc w =? 0) eqn:Hrc; [done|]. cbn.
  unfold CHECK_EQ, CHECK. rewrite Hrc. discriminate.
Qed.

(** A lookup that returns keeps the registry well formed, and what it
    returns is the thread's value for the key. *)
Lemma lookup_keeps_registry t w p w' :
  registry_wf w ->
  run t GetContextForThisThread w = (Returned p, w') ->
  registry_wf w' /\ specific w' !! t = Some p.
Proof.
  intros [Hlive Hinj] Hrun.
  pose proof (lookup_returns_available t w p w' Hrun) as Hk.
  rewrite (run_GetContextForThisThread t w Hk) in Hrun. cbv zeta in Hrun.
  destruct (specific w !! t) as [q|] eqn:Hs.
  - injection Hrun as <- <-. split; [|by destruct (key_once w)].
    split.
    + intros t1 p1 Hp1.
      assert (Hp1' : specific w !! t1 = Some p1) by (by destruct (key_once w)).
      destruct (Hlive t1 p1 Hp1') as [Hb Ho]. by destruct (key_once w).
    + intros t1 t2 p1 H1 H2. apply (Hinj t1 t2 p1); by destruct (key_once w).
  - injection Hrun as <- <-. unfold registry_wf. cbn. split; [|apply lookup_insert_eq].
    pose proof (is_fresh (blocks w)) as Hfresh.
    assert (Hother : forall t1 p1, specific w !! t1 = Some p1 -> p1 <> fresh (blocks w)).
    { intros t1 p1 Hp1 ->. by destruct (Hlive t1 _ Hp1). }
    split.
    + intros t1 p1 Hp1. destruct (decide (t1 = t)) as [->|Hne].
      * rewrite lookup_insert_eq in Hp1. injection Hp1 as <-.
        split; [apply elem_of_union_l, elem_of_singleton; reflexivity|].
        rewrite lookup_insert_eq. by eexists.
      * rewrite lookup_insert_ne in Hp1 by done.
        destruct (Hlive t1 p1 Hp1) as [Hb Ho]. split.
        -- apply elem_of_union_r. by destruct (key_once w).
        -- rewrite lookup_insert_ne by (symmetry; by apply (Hother t1)).
           by destruct (key_once w).
    + intros t1 t2 p1 H1 H2.
      destruct (decide (t1 = t)) as [->|Hne1], (decide (t2 = t)) as [->|Hne2];
        [done| | |].
      * rewrite lookup_insert_eq in H1. rewrite lookup_insert_ne in H2 by done.
        injection H1 as <-. by destruct (Hother t2 _ H2).
      * rewrite lookup_insert_eq in H2. rewrite lookup_insert_ne in H1 by done.
        injection H2 as <-. by destruct (Hother t1 _ H1).
      * rewrite lookup_insert_ne in H1, H2 by done. by apply (Hinj t1 t2 p1).
Qed.

(** The end of a thread in one equation. *)
Lemma thread_exit_eq t w :
  thread_exit t w =
  (Returned tt,
   match context_key w, specific w !! t with
   | Some _, Some p =>
       set_objects (delete p (objects w))
         (set_blocks (blocks w ∖ {[p]}) (set_specific (delete t (specific w)) w))
   | _, _ => set_specific (delete t (specific w)) w
   end).
Proof.
  unfold thread_exit. by destruct (context_key w) as [[]|], (specific w !! t).
Qed.

Lemma do_activity_keeps_registry a w w' :
  registry_wf w -> do_activity a w = (Returned tt, w') -> registry_wf w'.
Proof.
  intros Hwf Hdo. destruct a as [t'|t' q m|t' q name|t']; cbn [do_activity] in Hdo.
  - rewrite run_bind in Hdo.
    destruct (run t' GetContextForThisThread w) as [[p|why] w1] eqn:Hrun;
      [|discriminate].
    injection Hdo as <-. by destruct (lookup_keeps_registry t' w p w1 Hwf Hrun).
  - cbn in Hdo. destruct (objects w !! q) as [c|] eqn:Hq; [|discriminate].
    injection Hdo as <-. destruct Hwf as [Hlive Hinj]. split; [|exact Hinj].
    intros t p Hp. destruct (Hlive t p Hp) as [Hb Ho]. split; [exact Hb|]. cbn.
    destruct (decide (q = p)) as [->|Hne];
      [rewrite lookup_insert_eq; by eexists|by rewrite lookup_insert_ne].
  - unfold ExpectNotRealtime in Hdo. rewrite run_ExpectNotRealtime_under in Hdo.
    destruct (rtsan_initialized w); [|discriminate].
    destruct (objects w !! q) as [c|]; [|discriminate].
    destruct (InRealtimeContext c && negb (IsBypassed c)); [discriminate|].
    by injection Hdo as <-.
  - rewrite thread_exit_eq in Hdo. injection Hdo as <-.
    destruct Hwf as [Hlive Hinj].
    assert (Hrest : forall t p, delete t' (specific w) !! t = Some p ->
                                t <> t' /\ specific w !! t = Some p).
    { intros t p Hp. destruct (decide (t = t')) as [->|Hne].
      - by rewrite lookup_delete_eq in Hp.
      - by rewrite lookup_delete_ne in Hp. }
    destruct (context_key w) as [d|], (specific w !! t') as [q|] eqn:Hq;
      unfold registry_wf; cbn.
    + split.
      * intros t p [Hne Hp]%Hrest. destruct (Hlive t p Hp) as [Hb Ho].
        assert (p <> q) by (intros ->; by apply Hne, (Hinj t t' q)).
        split; [|by rewrite lookup_delete_ne].
        apply elem_of_difference. split; [exact Hb|]. by intros ?%elem_of_singleton.
      * intros t1 t2 p [_ H1]%Hrest [_ H2]%Hrest. by apply (Hinj t1 t2 p).
    + split; [intros t p [_ Hp]%Hrest; by apply (Hlive t)|].
      intros t1 t2 p [_ H1]%Hrest [_ H2]%Hrest. by apply (Hinj t1 t2 p).
    + split; [intros t p [_ Hp]%Hrest; by apply (Hlive t)|].
      intros t1 t2 p [_ H1]%Hrest [_ H2]%Hrest. by apply (Hinj t1 t2 p).
    + split; [intros t p [_ Hp]%Hrest; by apply (Hlive t)|].
      intros t1 t2 p [_ H1]%Hrest [_ H2]%Hrest. by apply (Hinj t1 t2 p).
Qed.

Lemma after_keeps_registry acts w w' :
  registry_wf w -> after acts w = Some w' -> registry_wf w'.
Proof.
  revert w. induction acts as [|a acts IH]; intros w Hwf Hafter.
  - by injection Hafter as <-.
  - cbn [after] in Hafter.
    destruct (do_activity a w) as [[[]|why] w1] eqn:Hdo; [|discriminate].
    apply (IH w1); [|exact Hafter]. by apply (do_activity_keeps_registry a w).
Qed.

Lemma registry_wf_fresh : registry_wf world_fresh.
Proof.
  split; [intros t p Hp|intros t1 t2 p Hp]; cbn in Hp;
    by rewrite lookup_empty in Hp.
Qed.

Lemma registry_wf_world_with initialized c : registry_wf (world_with initialized c).
Proof.
  unfold registry_wf, world_with. cbn. split.
  - intros t p [<- <-]%lookup_singleton_Some.
    split; [by apply elem_of_singleton|]. exists c. apply lookup_singleton_eq.
  - by intros t1 t2 p [<- _]%lookup_singleton_Some [<- _]%lookup_singleton_Some.
Qed.


(** X8: starting from a well-formed registry, whatever the threads do
    (lookups, member calls, calls of the detector that return, thread
    exits), a lookup that returns gives the thread a reference to a live
    block with a context constructed in it, which is that thread's value
    for the key and no other thread's; and the registry is still well
    formed. *)
Theorem lookup_returns_live_context (acts : list Activity) (t : tid)
    (w w1 w2 : World) (p : addr) :
  registry_wf w ->
  after acts w = Some w1 ->
  run t GetContextForThisThread w1 = (Returned p, w2) ->
  registry_wf w2
  /\ (p ∈ blocks w2)
  /\ is_Some (objects w2 !! p)
  /\ specific w2 !! t = Some p
  /\ forall t', t' <> t -> specific w2 !! t' <> Some p.
Proof.
  intros Hwf Hafter Hrun.
  pose proof (after_keeps_registry acts w w1 Hwf Hafter) as Hwf1.
  destruct (lookup_keeps_registry t w1 p w2 Hwf1 Hrun) as [Hwf2 Hp].
  split; [exact Hwf2|]. destruct Hwf2 as [Hlive Hinj].
  destruct (Hlive t p Hp) as [Hb Ho].
  split; [exact Hb|]. split; [exact Ho|]. split; [exact Hp|].
  intros t' Hne Hp'. by apply Hne, (Hinj t' t p).
Qed.

Lemma lookup_returns_live_context_witness :
  exists w1 p w2,
    after [ActLookup 1%nat; ActMember 1%nat 2%positive MRealtimePush; ActExit 0%nat]
      (world_with true (mkContext 1 0)) = Some w1
    /\ run 1%nat GetContextForThisThread w1 = (Returned p, w2)
    /\ is_Some (objects w2 !! p)
    /\ specific w2 !! 1%nat = Some p
    /\ specific w2 !! 0%nat <> Some p.
Proof.
  assert (Hafter : exists w1,
            after [ActLookup 1%nat; ActMember 1%nat 2%positive MRealtimePush;
                   ActExit 0%nat]
              (world_with true (mkContext 1 0)) = Some w1
            /\ key_available w1 = true
            /\ specific w1 !! 1%nat = Some 2%positive).
  { eexists. split; [vm_compute; reflexivity|]. split; vm_compute; reflexivity. }
  destruct Hafter as (w1 & Hafter & Hk & Hs).
  pose proof (run_GetContextForThisThread 1%nat w1 Hk) as Hrun.
  cbv zeta in Hrun. rewrite Hs in Hrun.
  exists w1. eexists _, _. split; [exact Hafter|]. split; [exact Hrun|].
  destruct (lookup_returns_live_context _ 1%nat (world_with true (mkContext 1 0))
              _ _ _ (registry_wf_world_with true (mkContext 1 0)) Hafter Hrun)
    as (_ & _ & Ho & Hs2 & Hne).
  split; [exact Ho|]. split; [exact Hs2|]. apply Hne. discriminate.
Defined.





(** X11: once the key exists, a lookup made under a thread number after
    the thread with that number has ended returns, allocates one block
    and gives a newly constructed context, whatever the counters of the
    ended thread's context were. *)
Theorem lookup_after_exit_is_new (t : tid) (w : World) :
  key_once w = ONCE_DONE ->
  exists w1 p w2,
    thread_exit t w = (Returned tt, w1)
    /\ run t GetContextForThisThread w1 = (Returned p, w2)
    /\ allocations t GetContextForThisThread w1 = 1%nat
    /\ objects w2 !! p = Some Context_new
    /\ specific w2 !! t = Some p.
Proof.
  intros Hk.
  assert (Hw1 : exists w1, thread_exit t w = (Returned tt, w1)
                           /\ key_once w1 = ONCE_DONE /\ specific w1 !! t = None).
  { eexists. split; [apply thread_exit_eq|].
    destruct (context_key w), (specific w !! t); cbn;
      (split; [exact Hk|apply lookup_delete_eq]). }
  destruct Hw1 as (w1 & Hexit & Hk1 & Hs1).
  assert (Ha : key_available w1 = true) by (unfold key_available; by rewrite Hk1).
  exists w1. eexists _, _. split; [exact Hexit|].
  split; [by rewrite (run_GetContextForThisThread t w1 Ha), Hs1|].
  split; [by rewrite (allocations_GetContextForThisThread t w1 Ha), Hs1|].
  cbn. split; apply lookup_insert_eq.
Qed.

Lemma lookup_after_exit_is_new_witness :
  exists w1 p w2,
    thread_exit 0%nat (world_with true (mkContext 3 1)) = (Returned tt, w1)
    /\ run 0%nat GetContextForThisThread w1 = (Returned p, w2)
    /\ allocations 0%nat GetContextForThisThread w1 = 1%nat
    /\ objects w2 !! p = Some Context_new
    /\ specific w2 !! 0%nat = Some p.
Proof.
  apply (lookup_after_exit_is_new 0%nat (world_with true (mkContext 3 1))).
  reflexivity.
Defined.

(** What thread [t] reads through its own reference. *)
Lemma probe_answer t q w :
  registry_wf w ->
  key_available w = true ->
  fst (run t (ctx ← GetContextForThisThread; query ctx q) w) =
  Returned (observe q (match specific w !! t with
                       | Some p => default Context_new (objects w !! p)
                       | None => Context_new
                       end)).
Proof.
  intros [Hlive _] Hk. rewrite run_bind, (run_GetContextForThisThread t w Hk).
  destruct (specific w !! t) as [p|] eqn:Hs; cbn.
  - destruct (Hlive t p Hs) as [_ [c Hc]].
    replace (objects match key_once w with
                     | ONCE_DONE => w
                     | _ => set_key_once ONCE_DONE
                              (set_context_key (Some dtor_InternalFreeWrapper) w)
                     end) with (objects w) by (by destruct (key_once w)).
    by rewrite Hc.
  - by rewrite lookup_insert_eq.
Qed.

(** What a lookup leaves as it was. *)
Lemma lookup_effect t w p wa :
  run t GetContextForThisThread w = (Returned p, wa) ->
  key_once wa = ONCE_DONE
  /\ (forall t', t' <> t -> specific wa !! t' = specific w !! t')
  /\ (forall p', p' ∈ blocks w -> objects wa !! p' = objects w !! p').
Proof.
  intros Hlook.
  pose proof (lookup_returns_available t w p wa Hlook) as Hk.
  rewrite (run_GetContextForThisThread t w Hk) in Hlook. cbv zeta in Hlook.
  unfold key_available in Hk.
  destruct (key_once w) eqn:Hk1; [|discriminate|];
    destruct (specific w !! t); injection Hlook as <- <-; cbn;
    (split; [done|]); (split; [intros t' Hne; by rewrite ?lookup_insert_ne|]);
    intros p' Hp'; try done;
    rewrite lookup_insert_ne; [done| |done|];
    intros <-; by apply (is_fresh (blocks w)).
Qed.

(** X12: a member call that one thread makes on the context it looked up
    does not change what another thread reads from its own: after it,
    the other thread's [InRealtimeContext()] and [IsBypassed()], read
    through its own lookup, answer as they would have before, whether or
    not either thread had a context yet. *)
Theorem contexts_are_isolated (t1 t2 : tid) (m : Mutator) (q : Observer)
    (w w1 : World) :
  registry_wf w ->
  t1 <> t2 ->
  run t1 (ctx ← GetContextForThisThread; call ctx m) w = (Returned tt, w1) ->
  fst (run t2 (ctx ← GetContextForThisThread; query ctx q) w1)
  = fst (run t2 (ctx ← GetContextForThisThread; query ctx q) w).
Proof.
  intros Hwf Hne Hrun. rewrite run_bind in Hrun.
  destruct (run t1 GetContextForThisThread w) as [[p1|why] wa] eqn:Hlook;
    [|discriminate].
  pose proof (lookup_returns_available t1 w p1 wa Hlook) as Hk.
  destruct (lookup_keeps_registry t1 w p1 wa Hwf Hlook) as [Hwfa Hp1].
  destruct (lookup_effect t1 w p1 wa Hlook) as (Hka & Hsa & Hoa).
  destruct (proj1 Hwfa t1 p1 Hp1) as [_ [c1 Hc1]].
  rewrite (run_call t1 p1 m wa c1 Hc1) in Hrun. injection Hrun as <-.
  assert (Hwf1 : registry_wf (set_objects (<[p1:=mutate m c1]> (objects wa)) wa)).
  { apply (do_activity_keeps_registry (ActMember t1 p1 m) wa); [exact Hwfa|].
    cbn [do_activity]. by apply run_call. }
  assert (Hk1 : key_available (set_objects (<[p1:=mutate m c1]> (objects wa)) wa) = true).
  { unfold key_available. cbn. by rewrite Hka. }
  rewrite (probe_answer t2 q _ Hwf1 Hk1), (probe_answer t2 q w Hwf Hk).
  f_equal. f_equal. cbn. rewrite (Hsa t2) by done.
  destruct (specific w !! t2) as [p2|] eqn:Hp2; [|reflexivity].
  assert (p1 <> p2).
  { intros ->. apply Hne. apply (proj2 Hwfa t1 t2 p2 Hp1). by rewrite Hsa. }
  rewrite lookup_insert_ne by done.
  rewrite (Hoa p2); [reflexivity|]. by apply (proj1 Hwf t2 p2 Hp2).
Qed.

Lemma contexts_are_isolated_witness :
  fst (run 0%nat (ctx ← GetContextForThisThread; query ctx QInRealtimeContext)
         (snd (run 1%nat (ctx ← GetContextForThisThread; call ctx MRealtimePush)
                 (world_with true Context_new))))
  = fst (run 0%nat (ctx ← GetContextForThisThread; query ctx QInRealtimeContext)
           (world_with true Context_new)).
Proof.
  apply (contexts_are_isolated 1%nat 0%nat MRealtimePush QInRealtimeContext
           (world_with true Context_new)).
  - exact (registry_wf_world_with true Context_new).
  - discriminate.
  - vm_compute. reflexivity.
Defined.

(** ** The call of an interceptor: lookup, then the detector *)

(** X13: in an initialised runtime with a well-formed registry and the
    key available, the call of an interceptor (look up the context of the
    thread, hand it to [ExpectNotRealtime]) never faults on the reference
    it got: it ends the process with a report exactly when the thread's
    own context is in a real-time region and not bypassed, and otherwise
    returns with the output as it was; a thread without a context gets a
    new one and never reports. *)
Theorem intercepted_call (t : tid) (name : string) (w : World) :
  registry_wf w ->
  rtsan_initialized w = true ->
  key_available w = true ->
  exists c,
    match specific w !! t with
    | Some p => objects w !! p = Some c
    | None => c = Context_new
    end
    /\ fst (run t (ctx ← GetContextForThisThread; ExpectNotRealtime ctx name) w)
       = (if InRealtimeContext c && negb (IsBypassed c)
          then Stopped Died else Returned tt)
    /\ (InRealtimeContext c && negb (IsBypassed c) = false ->
        output (snd (run t (ctx ← GetContextForThisThread;
                            ExpectNotRealtime ctx name) w)) = output w).
Proof.
  intros [Hlive _] Hi Hk.
  rewrite run_bind, (run_GetContextForThisThread t w Hk). cbv zeta.
  unfold ExpectNotRealtime.
  destruct (specific w !! t) as [p|] eqn:Hs.
  - destruct (Hlive t p Hs) as [_ [c Hc]]. exists c. split; [exact Hc|].
    rewrite run_ExpectNotRealtime_under.
    replace (rtsan_initialized _) with true by (by destruct (key_once w)).
    replace (objects _ !! p) with (Some c) by (by destruct (key_once w)).
    destruct (InRealtimeContext c && negb (IsBypassed c)).
    + split; [reflexivity|discriminate].
    + split; [reflexivity|]. intros _. by destruct (key_once w).
  - exists Context_new. split; [reflexivity|].
    rewrite run_ExpectNotRealtime_under.
    replace (rtsan_initialized _) with true by (by destruct (key_once w)).
    cbn [objects set_objects set_specific]. rewrite lookup_insert_eq.
    cbn [InRealtimeContext IsBypassed Context_new realtime_depth_ bypass_depth_
         andb negb Z.gtb Z.compare].
    split; [reflexivity|]. intros _. by destruct (key_once w).
Qed.

Lemma intercepted_call_witness :
  exists c,
    objects (world_with true (mkContext 1 0)) !! 1%positive = Some c
    /\ fst (run 0%nat (ctx ← GetContextForThisThread; ExpectNotRealtime ctx "malloc")
              (world_with true (mkContext 1 0)))
       = (if InRealtimeContext c && negb (IsBypassed c)
          then Stopped Died else Returned tt).
Proof.
  destruct (intercepted_call 0%nat "malloc" (world_with true (mkContext 1 0))
              (registry_wf_world_with true (mkContext 1 0)) eq_refl eq_refl)
    as (c & Hc & Hrun & _).
  exists c. split; [exact Hc|exact Hrun].
Defined.

(** ** Racing lookups and their contexts *)

Lemma at_stage_GetContextForThisThread : at_stage Looking GetContextForThisThread.
Proof.
  unfold GetContextForThisThread, GetContextForThisThreadImpl. cbn.
  split; [reflexivity|]. intros [|]; cbn.
  - split; [reflexivity|]. intros rc. unfold CHECK_EQ, CHECK.
    destruct (rc =? 0); cbn.
    + split; [reflexivity|]. intros _. split; [reflexivity|].
      intros [p|]; cbn; [reflexivity|].
      split; [reflexivity|]. intros p. split; [by apply bool_decide_eq_true|].
      intros _. split; [by apply bool_decide_eq_true|]. intros _. reflexivity.
    + split; [reflexivity|]. intros [].
  - split; [reflexivity|].
    intros [p|]; cbn; [reflexivity|].
    split; [reflexivity|]. intros p. split; [by apply bool_decide_eq_true|].
    intros _. split; [by apply bool_decide_eq_true|]. intros _. reflexivity.
Qed.

Lemma stage_inv_extends t t' st w w' :
  t' <> t ->
  extends t w w' ->
  (forall q, held st = Some q -> specific w' !! t <> Some q) ->
  stage_inv t' st w -> stage_inv t' st w'.
Proof.
  intros Hne (Hs & Hb & Ho) Hheld.
  assert (Hnot : forall q, held st = Some q ->
                   (forall t'', specific w !! t'' <> Some q) ->
                   forall t'', specific w' !! t'' <> Some q).
  { intros q Hq Hall t''. destruct (decide (t'' = t)) as [->|Hne'].
    - by apply Hheld.
    - rewrite Hs by done. apply Hall. }
  destruct st as [| |p|p|p]; cbn; [done|..].
  - by rewrite Hs.
  - intros (H1 & H2 & H3). rewrite Hs by done.
    split; [done|]. split; [by apply Hb|]. by apply (Hnot p).
  - intros (H1 & H2 & H3 & H4). rewrite Hs by done.
    split; [done|]. split; [by apply Hb|]. split; [by apply Ho|]. by apply (Hnot p).
  - by rewrite Hs.
Qed.

(** One operation of a lookup, performed at its stage. *)
Lemma handle_at_stage t e w x w' st :
  registry_wf w ->
  stage_allowed st e = true ->
  stage_inv t st w ->
  handle t e w = (Returned x, w') ->
  extends t w w'
  /\ registry_wf w'
  /\ stage_inv t (stage_next e x) w'
  /\ (forall q, held (stage_next e x) = Some q -> q ∉ blocks w \/ held st = Some q)
  /\ (forall q, specific w' !! t = Some q ->
                specific w !! t = Some q \/ held st = Some q).
Proof.
  intros Hwf Hal Hst Hh.
  destruct st as [| |p|p|p], e; try discriminate Hal; cbn in Hh;
    try discriminate Hh.
  - (* pthread_once, entry *)
    destruct (key_once w); try discriminate Hh; injection Hh as <- <-.
    + split; [by repeat split|]. split; [exact Hwf|]. split; [exact I|].
      split; [discriminate|by left].
    + split; [by repeat split|]. split; [exact Hwf|]. split; [exact I|].
      split; [discriminate|by left].
  - (* pthread_once, return *)
    injection Hh as <- <-.
    split; [by repeat split|]. split; [exact Hwf|]. split; [exact I|].
    split; [discriminate|by left].
  - (* pthread_key_create *)
    destruct (key_create_rc w =? 0); injection Hh as <- <-.
    + split; [by repeat split|]. split; [exact Hwf|]. split; [exact I|].
      split; [discriminate|by left].
    + split; [by repeat split|]. split; [exact Hwf|]. split; [exact I|].
      split; [discriminate|by left].
  - (* pthread_getspecific *)
    injection Hh as <- <-.
    split; [by repeat split|]. split; [exact Hwf|].
    split; [by destruct (specific w !! t) eqn:Hs|].
    split; [by destruct (specific w !! t)|by left].
  - (* InternalAlloc *)
    injection Hh as <- <-. pose proof (is_fresh (blocks w)) as Hfresh.
    split; [|split; [|split; [|split]]].
    + split; [done|]. split; [|done]. intros q Hq. by apply elem_of_union_r.
    + destruct Hwf as [Hlive Hinj]. split; [|exact Hinj].
      intros t1 p1 Hp1. destruct (Hlive t1 p1 Hp1) as [Hb Ho].
      split; [by apply elem_of_union_r|exact Ho].
    + cbn. split; [exact Hst|].
      split; [apply elem_of_union_l, elem_of_singleton; reflexivity|].
      intros t1 Hp1. by destruct (proj1 Hwf t1 _ Hp1).
    + intros q [= <-]. by left.
    + intros q Hq. by left.
  - (* placement new *)
    apply bool_decide_eq_true in Hal as ->.
    destruct Hst as (Hs & Hb & Hnot).
    destruct (decide (p ∈ blocks w)); [|done]. injection Hh as <- <-.
    split; [|split; [|split; [|split]]].
    + split; [done|]. split; [done|]. intros q Hq. cbn.
      destruct (decide (p = q)) as [->|Hne];
        [rewrite lookup_insert_eq; by eexists|by rewrite lookup_insert_ne].
    + destruct Hwf as [Hlive Hinj]. split; [|exact Hinj].
      intros t1 p1 Hp1. destruct (Hlive t1 p1 Hp1) as [Hb1 Ho1].
      split; [exact Hb1|]. cbn. rewrite lookup_insert_ne; [exact Ho1|].
      intros ->. by apply (Hnot t1).
    + cbn. split; [exact Hs|]. split; [exact Hb|].
      split; [rewrite lookup_insert_eq; by eexists|exact Hnot].
    + intros q [= <-]. by right.
    + intros q Hq. by left.
  - (* pthread_setspecific *)
    apply bool_decide_eq_true in Hal as ->.
    destruct Hst as (Hs & Hb & Ho & Hnot). injection Hh as <- <-.
    split; [|split; [|split; [|split]]].
    + split; [|done]. intros t' Hne. cbn. by rewrite lookup_insert_ne.
    + destruct Hwf as [Hlive Hinj]. split.
      * intros t1 p1. cbn. destruct (decide (t1 = t)) as [->|Hne].
        -- rewrite lookup_insert_eq. by intros [= <-].
        -- rewrite lookup_insert_ne by done. apply Hlive.
      * intros t1 t2 p1. cbn.
        destruct (decide (t1 = t)) as [->|Hne1], (decide (t2 = t)) as [->|Hne2];
          [done| | |].
        -- rewrite lookup_insert_eq, lookup_insert_ne by done.
           intros [= <-] H2. by destruct (Hnot t2).
        -- rewrite lookup_insert_eq, lookup_insert_ne by done.
           intros H1 [= <-]. by destruct (Hnot t1).
        -- rewrite !lookup_insert_ne by done. apply Hinj.
    + cbn. apply lookup_insert_eq.
    + discriminate.
    + intros q. cbn. rewrite lookup_insert_eq. intros [= <-]. by right.
Qed.

(** A lookup is ended by the check on the key only. *)
Lemma handle_stops_at_stage t e w why w' st :
  stage_allowed st e = true ->
  stage_inv t st w ->
  handle t e w = (Stopped why, w') ->
  why = CheckFailure \/ why = Blocked.
Proof.
  intros Hal Hst Hh.
  destruct st as [| |p|p|p], e; try discriminate Hal; cbn in Hh;
    try discriminate Hh.
  - injection Hh as <- <-. by left.
  - destruct (key_once w); try discriminate Hh. injection Hh as <- <-. by right.
  - destruct (key_create_rc w =? 0); discriminate Hh.
  - apply bool_decide_eq_true in Hal as ->. destruct Hst as (_ & Hb & _).
    by destruct (decide (p ∈ blocks w)).
Qed.

Lemma lookups_inv_step c t ev c' :
  lookups_inv c -> step_thread t c = Some (ev, c') -> lookups_inv c'.
Proof.
  intros Hinv Hs. destruct c as [pool w|]; [|discriminate].
  apply step_thread_inv in Hs as (e & k & Hp & -> & Hcase).
  destruct Hinv as (Hwf & stages & Hall & Hinj).
  destruct (Hall t _ Hp) as [[Hal Hnext] Hst].
  destruct Hcase as [(x & w' & Hh & ->)|(why & w' & Hh & Hnb & ->)].
  - destruct (handle_at_stage t e w x w' (stages t) Hwf Hal Hst Hh)
      as (Hext & Hwf' & Hst' & Hheld & Hspec).
    split; [exact Hwf'|].
    exists (fun t' => if decide (t' = t) then stage_next e x else stages t').
    split.
    + intros t1 p1 Hp1. destruct (decide (t1 = t)) as [->|Hne].
      * rewrite lookup_insert_eq in Hp1. injection Hp1 as <-.
        split; [apply Hnext|exact Hst'].
      * rewrite lookup_insert_ne in Hp1 by done.
        destruct (Hall t1 p1 Hp1) as [Hat1 Hst1]. split; [exact Hat1|].
        apply (stage_inv_extends t t1 (stages t1) w w'); [done|exact Hext| |exact Hst1].
        intros q Hq Hsq.
        assert (Hno : forall t'', specific w !! t'' <> Some q).
        { destruct (stages t1); try discriminate Hq; injection Hq as ->;
            [by destruct Hst1 as (_ & _ & ?)|by destruct Hst1 as (_ & _ & _ & ?)]. }
        destruct (Hspec q Hsq) as [Hold|Hmine]; [by apply (Hno t)|].
        apply Hne. apply (Hinj t1 t q); [by eexists|by eexists|done|done].
    + assert (Hin : forall t1, is_Some (<[t:=k x]> pool !! t1) -> is_Some (pool !! t1)).
      { intros t1. destruct (decide (t1 = t)) as [->|Hne];
          [by eexists|by rewrite lookup_insert_ne]. }
      assert (Hnew : forall t2 q, t2 <> t -> is_Some (pool !! t2) ->
                       held (stage_next e x) = Some q ->
                       held (stages t2) = Some q -> False).
      { intros t2 q Hne [p2 Hp2] Hq Hq2.
        destruct (Hheld q Hq) as [Hfresh|Hmine].
        - apply Hfresh. destruct (Hall t2 p2 Hp2) as [_ Hst2].
          destruct (stages t2); try discriminate Hq2; injection Hq2 as ->;
            [by destruct Hst2 as (_ & ? & _)|by destruct Hst2 as (_ & ? & _)].
        - apply Hne. apply (Hinj t2 t q); [by eexists|by eexists|done|done]. }
      intros t1 t2 q H1%Hin H2%Hin.
      destruct (decide (t1 = t)) as [->|Hne1], (decide (t2 = t)) as [->|Hne2];
        [done| | |].
      * intros Hq Hq2. by destruct (Hnew t2 q).
      * intros Hq1 Hq. by destruct (Hnew t1 q).
      * by apply Hinj.
  - destruct (handle_stops_at_stage t e w why w' (stages t) Hal Hst Hh); done.
Qed.

Lemma lookups_inv_execution c0 l c :
  lookups_inv c0 -> execution c0 l c -> lookups_inv c.
Proof.
  intros H0 Hex. induction Hex as [c|c l c1 t ev c2 Hex IH Hs]; [exact H0|].
  apply (lookups_inv_step c1 t ev c2); [by apply IH|exact Hs].
Qed.

(** X14: when any number of threads race through a lookup, their
    operations taken one at a time in whatever order, from a well-formed
    registry, the process is ended by the check on the key only; and at
    every point every thread that has returned holds a reference to a
    live block with a context constructed in it, which is its value for
    the key, and no two threads that have returned hold the same
    reference. *)
Theorem racing_lookups_get_distinct_contexts (T : gset tid) (w0 : World)
    (l : list (tid * Prim * World)) (c : Config) :
  registry_wf w0 ->
  execution (Running (gset_to_gmap GetContextForThisThread T) w0) l c ->
  match c with
  | Ended why _ => why = CheckFailure
  | Running pool w =>
      registry_wf w
      /\ forall t p, pool !! t = Some (Ret p) ->
           specific w !! t = Some p
           /\ p ∈ blocks w
           /\ is_Some (objects w !! p)
           /\ forall t' p', t' <> t -> pool !! t' = Some (Ret p') -> p' <> p
  end.
Proof.
  intros Hwf Hex.
  assert (Hinv : lookups_inv c).
  { apply (lookups_inv_execution _ l c) in Hex; [exact Hex|].
    split; [exact Hwf|]. exists (fun _ => Looking). split; [|discriminate].
    intros t p [_ <-]%lookup_gset_to_gmap_Some.
    split; [apply at_stage_GetContextForThisThread|exact I]. }
  destruct c as [pool w|why w]; [|exact Hinv].
  destruct Hinv as (Hwf' & stages & Hall & _). split; [exact Hwf'|].
  assert (Hret : forall t p, pool !! t = Some (Ret p) -> specific w !! t = Some p).
  { intros t p Hp. destruct (Hall t _ Hp) as [Hat Hst]. cbn in Hat.
    by rewrite Hat in Hst. }
  intros t p Hp. pose proof (Hret t p Hp) as Hs.
  destruct (proj1 Hwf' t p Hs) as [Hb Ho].
  split; [exact Hs|]. split; [exact Hb|]. split; [exact Ho|].
  intros t' p' Hne Hp' ->. apply Hne. apply (proj2 Hwf' t' t p); [by apply Hret|exact Hs].
Qed.

Lemma racing_lookups_get_distinct_contexts_witness :
  match (schedule racing_turns two_racing).2 with
  | Ended why _ => why = CheckFailure
  | Running pool w =>
      registry_wf w
      /\ forall t p, pool !! t = Some (Ret p) ->
           specific w !! t = Some p
           /\ p ∈ blocks w
           /\ is_Some (objects w !! p)
           /\ forall t' p', t' <> t -> pool !! t' = Some (Ret p') -> p' <> p
  end.
Proof.
  exact (racing_lookups_get_distinct_contexts {[0%nat; 1%nat]} world_fresh
           (schedule racing_turns two_racing).1
           (schedule racing_turns two_racing).2
           registry_wf_fresh (schedule_execution racing_turns two_racing)).
Defined.

(** ** The scenarios of the design, run from a process with no context *)

(** A thread enters a region and calls an intercepted function: one
    report naming it, then the end of the process. *)
Example scenario_region_then_call :
  let r := run 0%nat (ctx ← GetContextForThisThread;
                      call ctx MRealtimePush;;
                      ExpectNotRealtime ctx "malloc") world_fresh in
  fst r = Stopped Died
  /\ output (snd r) = report_lines plain_decorator "malloc" 4096 8192.
Proof. split; reflexivity. Qed.

(** A thread that never entered a region: nothing is written and the
    call returns. *)
Example scenario_no_region :
  let r := run 0%nat (ctx ← GetContextForThisThread;
                      ExpectNotRealtime ctx "malloc") world_fresh in
  fst r = Returned tt /\ output (snd r) = [].
Proof. split; reflexivity. Qed.

(** A region entered and bypassed: nothing is written and the call
    returns. *)
Example scenario_bypassed :
  let r := run 0%nat (ctx ← GetContextForThisThread;
                      call ctx MRealtimePush;;
                      call ctx MBypassPush;;
                      ExpectNotRealtime ctx "malloc") world_fresh in
  fst r = Returned tt /\ output (snd r) = [].
Proof. split; reflexivity. Qed.

(** One thread in a region does not make another thread's call report. *)
Example scenario_two_threads :
  let r := run 1%nat (ctx ← GetContextForThisThread;
                      ExpectNotRealtime ctx "malloc")
             (snd (run 0%nat (ctx ← GetContextForThisThread;
                              call ctx MRealtimePush) world_fresh)) in
  fst r = Returned tt /\ output (snd r) = [].
Proof. split; reflexivity. Qed.

(** After the end of a thread its context is gone, and a later lookup
    under the same thread number allocates again. *)
Example lookup_after_exit :
  let w1 := snd (run 0%nat GetContextForThisThread world_fresh) in
  let w2 := snd (thread_exit 0%nat w1) in
  objects w2 = ∅
  /\ specific w2 !! 0%nat = None
  /\ allocations 0%nat GetContextForThisThread w2 = 1%nat.
Proof. repeat split; reflexivity. Qed.
